(** * Die yield calculator: the simulation engine of [app.py]

    A shallow embedding of the engine functions of [src/app.py]
    ([is_inside_wafer], [is_inside_panel], [compute_yield_fraction],
    [compute_geometry], [classify_die], [inject_defects], [run_simulation])
    and the properties the specification states about them.

    Numbers.  The program computes with Python floats.  Lengths and
    coordinates are modelled as exact rationals ([Q]), the yield fraction
    and the random draws as real numbers ([R]), because [math.exp] and
    [math.sqrt] have no rational counterpart; rounding, overflow and NaN are
    outside the model.  Python [int] values (counters, trial numbers, seeds)
    are [Z].

    Objects.  A die is a Python [dict]; lists hold references to dicts.
    [inject_defects] and [run_simulation] assign to [d["status"]] in place,
    so dice live in a store and lists hold addresses.

    Randomness.  The module-level generator of [random] is global state; it
    is threaded through together with the store.  The generator itself
    (seeding and drawing) is a parameter of the development. *)

From Stdlib Require Import ZArith QArith Qround Reals Psatz String List.
From stdpp Require Import base list.
Import ListNotations.

Local Open Scope Z_scope.

(** ** Exceptions and fallible results *)

Inductive exn : Type :=
  | ZeroDivisionError
  | ValueError.

Inductive result (A : Type) : Type :=
  | Ok (a : A)
  | Raise (e : exn).
Arguments Ok {A} a.
Arguments Raise {A} e.

Definition rbind {A B} (r : result A) (k : A -> result B) : result B :=
  match r with
  | Ok a => k a
  | Raise e => Raise e
  end.

(** ** Data model *)

(** [d["status"]]: one of six strings. *)
Inductive Status : Type :=
  | pending | good_physical | partial | lost | good | defective.

Definition status_eqb (a b : Status) : bool :=
  match a, b with
  | pending, pending | good_physical, good_physical | partial, partial
  | lost, lost | good, good | defective, defective => true
  | _, _ => false
  end.

(** The dict built by [compute_geometry]: keys ["x"], ["y"], ["corners"],
    ["status"]. *)
Record Die : Type := mkDie {
  die_x : Q;
  die_y : Q;
  corners : list (Q * Q);
  status : Status
}.

Definition set_status (d : Die) (s : Status) : Die :=
  mkDie (die_x d) (die_y d) (corners d) s.

(** [substrate_type] with its [substrate_params]: ["Wafer"] reads the keys
    ["radius"] and ["effective_radius"], every other type is treated as a
    panel and reads ["panel_width"], ["panel_height"], ["edge_loss"]. *)
Inductive Substrate : Type :=
  | Wafer (radius effective_radius : Q)
  | Panel (panel_width panel_height edge_loss : Q).

(** ** Inside tests *)

Definition is_inside_wafer (x y effective_radius : Q) : bool :=
  Qle_bool (x ^ 2 + y ^ 2) (effective_radius ^ 2).

Definition is_inside_panel (x y panel_width panel_height margin : Q) : bool :=
  Qle_bool margin x && Qle_bool x (panel_width - margin)
  && Qle_bool margin y && Qle_bool y (panel_height - margin).

(** ** Classifier *)

(** The test applied to one corner in the loop of [classify_die]. *)
Definition corner_inside (s : Substrate) (c : Q * Q) : bool :=
  let '(cx, cy) := c in
  match s with
  | Wafer _ effective_radius => is_inside_wafer cx cy effective_radius
  | Panel panel_width panel_height edge_loss =>
      is_inside_panel cx cy panel_width panel_height edge_loss
  end.

(** [inside_count] after the loop over [die["corners"]]. *)
Definition inside_count (s : Substrate) (cs : list (Q * Q)) : Z :=
  fold_left (fun n c => if corner_inside s c then n + 1 else n) cs 0.

Definition classify_die (die : Die) (s : Substrate) : Status :=
  let n := inside_count s (corners die) in
  if n =? 4 then good_physical
  else if 0 <? n then partial
  else lost.

(** ** Yield model *)

(** [math.sqrt] raises [ValueError] on a negative argument; the true
    division [1 / (1 + D)] raises [ZeroDivisionError] on a zero divisor. *)
Definition compute_yield_fraction (defect_rate critical_area : R)
    (model : string) : result R :=
  let D := (defect_rate * (critical_area / 100))%R in
  if String.eqb model "Poisson" then Ok (exp (- D))
  else if String.eqb model "Murphy" then
    if Req_dec_T D 0 then Ok 1%R else Ok (((1 - exp (- D)) / D) ^ 2)%R
  else if String.eqb model "Rectangular" then
    if Req_dec_T D 0 then Ok 1%R else Ok ((1 - exp (- (2 * D))) / (2 * D))%R
  else if String.eqb model "Moore" then
    if Rlt_dec D 0 then Raise ValueError else Ok (exp (- sqrt D))
  else if String.eqb model "Seeds" then
    if Req_dec_T (1 + D) 0 then Raise ZeroDivisionError else Ok (1 / (1 + D))%R
  else Ok (exp (- D)).

(** ** Geometry builder *)

(** [a // b] on floats. *)
Definition py_floordiv (a b : Q) : result Q :=
  if Qeq_bool b 0 then Raise ZeroDivisionError
  else Ok (inject_Z (Qfloor (a / b))).

(** [int(q)]: truncation towards zero. *)
Definition py_int (q : Q) : Z :=
  if Qle_bool 0 q then Qfloor q else Qceiling q.

(** [range(n)]. *)
Definition py_range (n : Z) : list Z :=
  map Z.of_nat (seq 0 (Z.to_nat n)).

(** [np.arange(start, stop, step)]: [ceil((stop - start) / step)] values
    [start + i * step]; the length is computed by a true division. *)
Definition np_arange (start stop step : Q) : result (list Q) :=
  if Qeq_bool step 0 then Raise ZeroDivisionError
  else Ok (map (fun i => start + inject_Z i * step)%Q
               (py_range (Qceiling ((stop - start) / step)))).

Fixpoint rmapM {A B} (f : A -> result B) (l : list A) : result (list B) :=
  match l with
  | [] => Ok []
  | a :: l' =>
      rbind (f a) (fun b => rbind (rmapM f l') (fun bs => Ok (b :: bs)))
  end.

Section Geometry.
Variables shot_width shot_height die_width die_height scribe_x scribe_y : Q.

Definition num_dice_x : result Z :=
  rbind (py_floordiv (shot_width + scribe_x) (die_width + scribe_x))
        (fun q => Ok (py_int q)).

Definition num_dice_y : result Z :=
  rbind (py_floordiv (shot_height + scribe_y) (die_height + scribe_y))
        (fun q => Ok (py_int q)).

(** The dict appended for cell [(i, j)] of the shot at [(shot_x, shot_y)]. *)
Definition place_die (shot_x shot_y : Q) (i j : Z) : Die :=
  let die_x := (shot_x + inject_Z i * (die_width + scribe_x))%Q in
  let die_y := (shot_y + inject_Z j * (die_height + scribe_y))%Q in
  mkDie die_x die_y
        [ (die_x, die_y);
          (die_x + die_width, die_y)%Q;
          (die_x, die_y + die_height)%Q;
          (die_x + die_width, die_y + die_height)%Q ]
        pending.

(** The dice one iteration of the [shot_x]/[shot_y] loops appends. *)
Definition shot_dice (shot_x shot_y : Q) : result (list Die) :=
  rbind num_dice_x (fun nx =>
  rbind num_dice_y (fun ny =>
  Ok (flat_map (fun i => map (fun j => place_die shot_x shot_y i j)
                             (py_range ny))
               (py_range nx)))).

Definition shot_positions (s : Substrate) : result (list Q * list Q) :=
  match s with
  | Wafer radius _ =>
      rbind (np_arange (- radius) radius shot_width) (fun xs =>
      rbind (np_arange (- radius) radius shot_height) (fun ys =>
      Ok (xs, ys)))
  | Panel panel_width panel_height _ =>
      rbind (np_arange 0 panel_width shot_width) (fun xs =>
      rbind (np_arange 0 panel_height shot_height) (fun ys =>
      Ok (xs, ys)))
  end.

Definition compute_geometry (s : Substrate) : result (list Die) :=
  rbind (shot_positions s) (fun '(xs, ys) =>
  rbind (rmapM (fun '(shot_x, shot_y) => shot_dice shot_x shot_y)
               (flat_map (fun shot_x => map (pair shot_x) ys) xs))
        (fun tiles => Ok (concat tiles))).
End Geometry.

(** ** Store of die objects *)

(** Addresses of dicts.  A list of dice is a list of addresses; the store
    maps an address to the dict's current contents.  Python never holds a
    reference to a dead object: an address outside the store is skipped by
    the loops below and is not reachable from the program. *)
Abbreviation loc := nat.
Abbreviation heap := (list Die).

(** [d["status"]] read through a reference. *)
Definition status_at (h : heap) (d : loc) : option Status :=
  match h !! d with
  | Some die => Some (status die)
  | None => None
  end.

Definition statuses (h : heap) (ls : list loc) : list (option Status) :=
  map (status_at h) ls.

(** [[d.copy() for d in base_dice]]: fresh dicts with the contents of the
    base dicts, at consecutive new addresses. *)
Definition copy_dice (base_dice : list loc) (h : heap) : list loc * heap :=
  let copies := omap (fun d => h !! d) base_dice in
  (seq (length h) (length copies), h ++ copies).

(** [d["status"] = classify_die(d, ...)] for one [d]. *)
Definition classify_step (s : Substrate) (h : heap) (d : loc) : heap :=
  match h !! d with
  | Some die => <[d := set_status die (classify_die die s)]> h
  | None => h
  end.

Definition classify_all (s : Substrate) (dice : list loc) (h : heap) : heap :=
  fold_left (classify_step s) dice h.

(** [sum(1 for d in dice if p(d["status"]))]. *)
Fixpoint count_dice (p : Status -> bool) (h : heap) (dice : list loc) : Z :=
  match dice with
  | [] => 0
  | d :: rest =>
      match status_at h d with
      | Some st => if p st then 1 + count_dice p h rest
                   else count_dice p h rest
      | None => count_dice p h rest
      end
  end.

(** [a / b] on ints. *)
Definition py_truediv (a b : Z) : result Q :=
  if b =? 0 then Raise ZeroDivisionError
  else Ok (inject_Z a / inject_Z b)%Q.

(** One entry of [sim_results]. *)
Record TrialResult : Type := mkTrialResult {
  res_total : Z;
  res_good_physical : Z;
  res_good : Z;
  res_defective : Z;
  res_partial : Z;
  res_lost : Z;
  res_fab_yield : Q;
  res_dice : list loc
}.

Section Engine.
(** The generator of the [random] module: its state, [random.seed(n)]
    and [random.random()]. *)
Variable rng_state : Type.
Variable rng_seed : Z -> rng_state.
Variable rng_random : rng_state -> R * rng_state.

(** What the engine reads and writes: the store and the generator. *)
Record World : Type := mkWorld {
  w_heap : heap;
  w_rng : rng_state
}.

(** ** Defect injector *)

(** The body of the loop of [inject_defects] for one [d]. *)
Definition inject_step (yield_fraction : R) (w : World) (d : loc) : World :=
  match w_heap w !! d with
  | Some die =>
      if status_eqb (status die) good_physical then
        let '(u, g) := rng_random (w_rng w) in
        let st := if Rlt_dec u yield_fraction then good else defective in
        mkWorld (<[d := set_status die st]> (w_heap w)) g
      else w
  | None => w
  end.

Definition inject_defects (dice_list : list loc) (yield_fraction : R)
    (seed : option Z) (w : World) : list loc * World :=
  let w1 := match seed with
            | Some n => mkWorld (w_heap w) (rng_seed n)
            | None => w
            end in
  (dice_list, fold_left (inject_step yield_fraction) dice_list w1).

(** ** Simulation runner *)

(** One iteration of the loop of [run_simulation]. *)
Definition run_trial (base_dice : list loc) (s : Substrate)
    (yield_fraction : R) (seed : option Z) (w : World)
    : result (TrialResult * World) :=
  let '(dice_copy, h1) := copy_dice base_dice (w_heap w) in
  let h2 := classify_all s dice_copy h1 in
  let '(dice_with_defects, w3) :=
    inject_defects dice_copy yield_fraction seed (mkWorld h2 (w_rng w)) in
  let h3 := w_heap w3 in
  let count_good := count_dice (status_eqb good) h3 dice_with_defects in
  let count_defective :=
    count_dice (status_eqb defective) h3 dice_with_defects in
  let count_partial := count_dice (status_eqb partial) h3 dice_with_defects in
  let count_lost := count_dice (status_eqb lost) h3 dice_with_defects in
  rbind (if 0 <? count_good + count_defective
         then py_truediv count_good (count_good + count_defective)
         else Ok 0%Q)
        (fun fab_yield =>
   Ok (mkTrialResult
         (Z.of_nat (length dice_with_defects))
         (count_dice (fun st => status_eqb st good || status_eqb st defective)
                     h3 dice_with_defects)
         count_good count_defective count_partial count_lost
         fab_yield dice_with_defects,
       w3)).

(** The loop over [range(sim_runs)], appending to [sim_results]. *)
Fixpoint run_trials (runs : list Z) (base_dice : list loc) (s : Substrate)
    (yield_fraction : R) (random_seed : option Z) (w : World)
    : result (list TrialResult * World) :=
  match runs with
  | [] => Ok ([], w)
  | run :: rest =>
      let seed := match random_seed with
                  | Some n => Some (n + run)
                  | None => None
                  end in
      rbind (run_trial base_dice s yield_fraction seed w) (fun '(r, w1) =>
      rbind (run_trials rest base_dice s yield_fraction random_seed w1)
            (fun '(rs, w2) => Ok (r :: rs, w2)))
  end.

Definition run_simulation (sim_runs : Z) (base_dice : list loc)
    (s : Substrate) (yield_fraction : R) (random_seed : option Z)
    (w : World) : result (list TrialResult * World) :=
  run_trials (py_range sim_runs) base_dice s yield_fraction random_seed w.

(** The statuses [inject_defects] leaves on a list of distinct dice, as a
    function of the statuses it finds: one draw per [good_physical]. *)
Fixpoint inject_statuses (yield_fraction : R) (ss : list (option Status))
    (g : rng_state) : list (option Status) * rng_state :=
  match ss with
  | [] => ([], g)
  | Some good_physical :: rest =>
      let '(u, g1) := rng_random g in
      let '(out, g2) := inject_statuses yield_fraction rest g1 in
      (Some (if Rlt_dec u yield_fraction then good else defective) :: out, g2)
  | o :: rest =>
      let '(out, g2) := inject_statuses yield_fraction rest g in
      (o :: out, g2)
  end.

End Engine.

Arguments World rng_state : clear implicits.
Arguments mkWorld {rng_state} w_heap w_rng.
Arguments w_heap {rng_state} w.
Arguments w_rng {rng_state} w.
Arguments inject_step {rng_state} rng_random yield_fraction w d.
Arguments inject_defects {rng_state} rng_seed rng_random
  dice_list yield_fraction seed w.
Arguments run_trial {rng_state} rng_seed rng_random
  base_dice s yield_fraction seed w.
Arguments run_trials {rng_state} rng_seed rng_random
  runs base_dice s yield_fraction random_seed w.
Arguments run_simulation {rng_state} rng_seed rng_random
  sim_runs base_dice s yield_fraction random_seed w.
Arguments inject_statuses {rng_state} rng_random yield_fraction ss g.

(** ** A small generator, to run the engine on examples

    The state is a counter; the draws cycle through 0, 1/4, 1/2, 3/4. *)
Definition cyc_seed (n : Z) : Z := n.

Definition cyc_random (g : Z) : R * Z :=
  ((IZR (g mod 4) / 4)%R, g + 1).

(** A wafer of radius 5 with an edge loss of 10, as the sidebar builds it:
    [effective_radius = radius - edge_loss]. *)
Definition small_wafer : Substrate := Wafer 5 (5 - 10).

(** A unit die at the origin. *)
Definition unit_die : Die :=
  mkDie 0 0 [ (0, 0); (1, 0); (0, 1); (1, 1) ]%Q pending.

(** The only change [inject_defects] can make to the store: a die of the
    list that is [good_physical] gets the status [good] or [defective]. *)
Definition injected (ls : list loc) (h h' : heap) : Prop :=
  length h' = length h
  /\ forall l : loc,
       h' !! l = h !! l
       \/ (l ∈ ls
           /\ exists die st,
                h !! l = Some die
                /\ status die = good_physical
                /\ (st = good \/ st = defective)
                /\ h' !! l = Some (set_status die st)).

(** The dicts a trial copies: the contents of the base dice. *)
Definition base_contents (h : heap) (base_dice : list loc) : list Die :=
  omap (fun d => h !! d) base_dice.

(** The statuses a trial leaves on its copies, when injection starts from
    generator state [g]: classification, then one draw per [good_physical]
    die in list order. *)
Definition trial_statuses {rng_state} (rng_random : rng_state -> R * rng_state)
    (s : Substrate) (yield_fraction : R) (g : rng_state)
    (contents : list Die) : list (option Status) :=
  fst (inject_statuses rng_random yield_fraction
         (map (fun die => Some (classify_die die s)) contents) g).

(** The states a die can end a trial in. *)
Definition final_status (o : option Status) : Prop :=
  o = Some good \/ o = Some defective \/ o = Some partial \/ o = Some lost.

(** References to live dicts. *)
Definition live (h : heap) (ls : list loc) : Prop :=
  Forall (fun l => (l < length h)%nat) ls.

(** The tallies of a trial result are the counts over its dice in store
    [h], with [fab_yield] computed from them. *)
Definition tallied (h : heap) (r : TrialResult) : Prop :=
  res_total r = Z.of_nat (length (res_dice r))
  /\ res_good r = count_dice (status_eqb good) h (res_dice r)
  /\ res_defective r = count_dice (status_eqb defective) h (res_dice r)
  /\ res_partial r = count_dice (status_eqb partial) h (res_dice r)
  /\ res_lost r = count_dice (status_eqb lost) h (res_dice r)
  /\ res_good_physical r
     = count_dice (fun st => status_eqb st good || status_eqb st defective)
                  h (res_dice r)
  /\ res_fab_yield r
     = (if 0 <? res_good r + res_defective r
        then inject_Z (res_good r) / inject_Z (res_good r + res_defective r)
        else 0)%Q.

(** A trial result whose dice were allocated after store [h0] and are
    found, fully resolved and tallied, in store [h']. *)
Definition trial_in (h0 h' : heap) (r : TrialResult) : Prop :=
  (forall l : loc, l ∈ res_dice r -> (length h0 <= l < length h')%nat)
  /\ tallied h' r
  /\ Forall final_status (statuses h' (res_dice r)).

(** Two trial results report the same numbers. *)
Definition same_tallies (r1 r2 : TrialResult) : Prop :=
  res_total r1 = res_total r2
  /\ res_good_physical r1 = res_good_physical r2
  /\ res_good r1 = res_good r2
  /\ res_defective r1 = res_defective r2
  /\ res_partial r1 = res_partial r2
  /\ res_lost r1 = res_lost r2
  /\ res_fab_yield r1 = res_fab_yield r2.

(** A store with the unit die, and the generator at 0. *)
Definition one_die_world : World Z := mkWorld [unit_die] 0.

(** A store with two classified dice: one [good_physical], one [lost]. *)
Definition classified_world : World Z :=
  mkWorld [set_status unit_die good_physical; set_status unit_die lost] 0.

(** A 10 x 10 panel with an edge loss of 6: no usable area. *)
Definition no_area_panel : Substrate := Panel 10 10 6.

(** Store [h'] holds every dict of [h], unchanged, and possibly more. *)
Definition extends (h h' : heap) : Prop :=
  (length h <= length h')%nat
  /\ forall l : loc, (l < length h)%nat -> h' !! l = h !! l.

(** [sum(1 for st in ss if p(st))] over a list of statuses read through
    references. *)
Fixpoint count_statuses (p : Status -> bool) (ss : list (option Status)) : Z :=
  match ss with
  | [] => 0
  | Some st :: rest =>
      if p st then 1 + count_statuses p rest else count_statuses p rest
  | None :: rest => count_statuses p rest
  end.

(** The statuses classification gives to a list of dicts. *)
Definition classified (s : Substrate) (contents : list Die)
    : list (option Status) :=
  map (fun die => Some (classify_die die s)) contents.

(** The keys of a die that are set once: ["x"], ["y"], ["corners"]. *)
Definition geometry (die : Die) : Q * Q * list (Q * Q) :=
  (die_x die, die_y die, corners die).

(** ** The simulation of [main]

    What the "Run Simulation" branch of [main] computes before it writes
    and plots: the yield fraction from the sidebar values, the base
    geometry as new dicts, their classification in place, and the trials.
    The seed is the sidebar's integer, never [None]. *)
Definition main_simulation {rng_state} (rng_seed : Z -> rng_state)
    (rng_random : rng_state -> R * rng_state)
    (s : Substrate) (shot_width shot_height die_width die_height
                     scribe_x scribe_y : Q)
    (defect_rate critical_area : R) (yield_model : string)
    (sim_runs random_seed : Z) (w : World rng_state)
    : result (list TrialResult * World rng_state) :=
  rbind (compute_yield_fraction defect_rate critical_area yield_model)
        (fun yield_fraction =>
  rbind (compute_geometry shot_width shot_height die_width die_height
                          scribe_x scribe_y s)
        (fun dicts =>
   let base_dice := seq (length (w_heap w)) (length dicts) in
   let h1 := w_heap w ++ dicts in
   let h2 := classify_all s base_dice h1 in
   run_simulation rng_seed rng_random sim_runs base_dice s yield_fraction
                  (Some random_seed) (mkWorld h2 (w_rng w)))).

(** The colour [main] draws a die in. *)
Definition die_color (st : Status) : string :=
  match st with
  | good => "green"
  | defective => "red"
  | partial => "yellow"
  | lost => "grey"
  | _ => "blue"
  end.

(** ** The first version ([v1/app.py])

    [main] of the first version does everything inline, once, without a
    seed.  Its dicts have the keys ["x"], ["y"], ["status"] and live in
    one local list, updated by index. *)
Record V1Die : Type := mkV1Die {
  v1_x : Q;
  v1_y : Q;
  v1_status : Status
}.

(** The body of the innermost loop: position, corners, count of corners
    inside, status. *)
Definition v1_place_die (die_width die_height scribe_x scribe_y : Q)
    (s : Substrate) (shot_x shot_y : Q) (i j : Z) : V1Die :=
  let die_x := (shot_x + inject_Z i * (die_width + scribe_x))%Q in
  let die_y := (shot_y + inject_Z j * (die_height + scribe_y))%Q in
  let corners := [ (die_x, die_y);
                   (die_x + die_width, die_y)%Q;
                   (die_x, die_y + die_height)%Q;
                   (die_x + die_width, die_y + die_height)%Q ] in
  let n := inside_count s corners in
  let status := if n =? 4 then good_physical
                else if 0 <? n then partial
                else lost in
  mkV1Die die_x die_y status.

Definition v1_shot_dice (shot_width shot_height die_width die_height
                         scribe_x scribe_y : Q) (s : Substrate)
    (shot_x shot_y : Q) : result (list V1Die) :=
  rbind (num_dice_x shot_width die_width scribe_x) (fun nx =>
  rbind (num_dice_y shot_height die_height scribe_y) (fun ny =>
  Ok (flat_map
        (fun i => map (fun j => v1_place_die die_width die_height
                                             scribe_x scribe_y s
                                             shot_x shot_y i j)
                      (py_range ny))
        (py_range nx)))).

(** Step 2 of [main]: [dice_list] after the loops over the shots. *)
Definition v1_build (shot_width shot_height die_width die_height
                     scribe_x scribe_y : Q) (s : Substrate)
    : result (list V1Die) :=
  rbind (shot_positions shot_width shot_height s) (fun '(xs, ys) =>
  rbind (rmapM (fun '(shot_x, shot_y) =>
                  v1_shot_dice shot_width shot_height die_width die_height
                               scribe_x scribe_y s shot_x shot_y)
               (flat_map (fun shot_x => map (pair shot_x) ys) xs))
        (fun tiles => Ok (concat tiles))).

(** [[idx for idx, d in enumerate(dice_list) if d["status"] ==
    "good_physical"]], with the enumeration starting at [idx]. *)
Fixpoint v1_indices_from (idx : nat) (dice_list : list V1Die) : list nat :=
  match dice_list with
  | [] => []
  | d :: rest =>
      if status_eqb (v1_status d) good_physical
      then idx :: v1_indices_from (S idx) rest
      else v1_indices_from (S idx) rest
  end.

(** One iteration of the injection loop: a draw, then the update of
    [dice_list[idx]["status"]]. *)
Definition v1_inject_step {rng_state}
    (rng_random : rng_state -> R * rng_state) (yld_fraction : R)
    (st : list V1Die * rng_state) (idx : nat) : list V1Die * rng_state :=
  let '(dice_list, g) := st in
  let '(u, g1) := rng_random g in
  let status := if Rlt_dec u yld_fraction then good else defective in
  (alter (fun d => mkV1Die (v1_x d) (v1_y d) status) idx dice_list, g1).

(** [sum(1 for d in dice_list if p(d["status"]))]. *)
Fixpoint v1_count (p : Status -> bool) (dice_list : list V1Die) : Z :=
  match dice_list with
  | [] => 0
  | d :: rest =>
      if p (v1_status d) then 1 + v1_count p rest else v1_count p rest
  end.

(** The numbers [main] writes, and the list it plots. *)
Record V1Summary : Type := mkV1Summary {
  v1_total_dice : Z;
  v1_num_good_physical : Z;
  v1_count_good : Z;
  v1_count_defective : Z;
  v1_count_partial : Z;
  v1_count_lost : Z;
  v1_fab_yield : Q;
  v1_dice_list : list V1Die
}.

(** Steps 1 to 4 of [main], from the sidebar values and the state of the
    generator to the summary. *)
Definition v1_calculate {rng_state}
    (rng_random : rng_state -> R * rng_state)
    (s : Substrate) (shot_width shot_height die_width die_height
                     scribe_x scribe_y : Q)
    (defect_rate critical_area : R) (yield_model : string)
    (g : rng_state) : result (V1Summary * rng_state) :=
  rbind (compute_yield_fraction defect_rate critical_area yield_model)
        (fun yld_fraction =>
  rbind (v1_build shot_width shot_height die_width die_height
                  scribe_x scribe_y s)
        (fun dice_list0 =>
   let good_physical_indices := v1_indices_from 0 dice_list0 in
   let num_good_physical := Z.of_nat (length good_physical_indices) in
   let '(dice_list, g1) :=
     fold_left (v1_inject_step rng_random yld_fraction)
               good_physical_indices (dice_list0, g) in
   let count_good := v1_count (status_eqb good) dice_list in
   let count_defective := v1_count (status_eqb defective) dice_list in
   let count_partial := v1_count (status_eqb partial) dice_list in
   let count_lost := v1_count (status_eqb lost) dice_list in
   let total_dice := Z.of_nat (length dice_list) in
   rbind (if 0 <? count_good + count_defective
          then py_truediv count_good (count_good + count_defective)
          else Ok 0%Q)
         (fun fab_yield =>
    Ok (mkV1Summary total_dice num_good_physical count_good count_defective
                    count_partial count_lost fab_yield dice_list,
        g1)))).

(** The v1 dict for a die of the current version: same position, status
    from [classify_die]. *)
Definition v1_of (s : Substrate) (die : Die) : V1Die :=
  mkV1Die (die_x die) (die_y die) (classify_die die s).

(** * Properties *)

(** ** Classifier *)

Lemma inside_count_from (s : Substrate) (cs : list (Q * Q)) (n : Z) :
  fold_left (fun n c => if corner_inside s c then n + 1 else n) cs n
  = n + Z.of_nat (length (List.filter (corner_inside s) cs)).
Proof.
  revert n; induction cs as [|c cs IH]; intros n; simpl.
  - lia.
  - rewrite IH. destruct (corner_inside s c); simpl; lia.
Qed.

Lemma inside_count_filter (s : Substrate) (cs : list (Q * Q)) :
  inside_count s cs = Z.of_nat (length (List.filter (corner_inside s) cs)).
Proof. unfold inside_count. rewrite inside_count_from. lia. Qed.

Lemma filter_length_le {A} (p : A -> bool) (l : list A) :
  (length (List.filter p l) <= length l)%nat.
Proof.
  induction l as [|a l IH]; simpl; [lia|].
  destruct (p a); simpl; lia.
Qed.

Lemma filter_length_all {A} (p : A -> bool) (l : list A) :
  length (List.filter p l) = length l <-> Forall (fun a => p a = true) l.
Proof.
  induction l as [|a l IH]; simpl.
  - split; [constructor | reflexivity].
  - pose proof (filter_length_le p l) as Hle.
    destruct (p a) eqn:Ha; simpl; split; intros H.
    + constructor; [exact Ha | apply IH; lia].
    + inversion H; subst. f_equal. apply IH. assumption.
    + lia.
    + inversion H; subst. congruence.
Qed.

Lemma is_inside_wafer_spec (x y r : Q) :
  is_inside_wafer x y r = true <-> (x ^ 2 + y ^ 2 <= r ^ 2)%Q.
Proof. unfold is_inside_wafer. apply Qle_bool_iff. Qed.

Lemma is_inside_panel_spec (x y pw ph m : Q) :
  is_inside_panel x y pw ph m = true
  <-> (m <= x /\ x <= pw - m /\ m <= y /\ y <= ph - m)%Q.
Proof.
  unfold is_inside_panel.
  rewrite !andb_true_iff, !Qle_bool_iff. tauto.
Qed.



(** ** Negative radii and margins *)

Lemma Qsquare_opp (r : Q) : ((- r) ^ 2 == r ^ 2)%Q.
Proof. simpl. ring. Qed.

Lemma is_inside_wafer_opp (x y r : Q) :
  is_inside_wafer x y r = is_inside_wafer x y (- r).
Proof.
  unfold is_inside_wafer.
  apply Qleb_comp; [reflexivity | symmetry; apply Qsquare_opp].
Qed.

Lemma inside_count_wafer_opp (rad er : Q) (cs : list (Q * Q)) :
  inside_count (Wafer rad er) cs = inside_count (Wafer rad (- er)) cs.
Proof.
  rewrite !inside_count_filter. do 2 f_equal.
  apply List.filter_ext. intros [cx cy]. simpl. apply is_inside_wafer_opp.
Qed.



(** C10: the wafer test compares against the square of the radius, so it
    takes the same value at [r] and [- r]; a wafer with a negative effective
    radius classifies every die as the wafer with the opposite radius does,
    and it can classify a die as [good_physical]. *)
Theorem is_inside_wafer_sign_symmetric :
  (forall x y r : Q, is_inside_wafer x y r = is_inside_wafer x y (- r))
  /\ (forall (die : Die) (rad er : Q),
        classify_die die (Wafer rad er) = classify_die die (Wafer rad (- er)))
  /\ (exists (die : Die) (rad er : Q),
        (er < 0)%Q /\ classify_die die (Wafer rad er) = good_physical).
Proof.
  split; [exact is_inside_wafer_opp|].
  split.
  - intros die rad er. unfold classify_die.
    rewrite (inside_count_wafer_opp rad er). reflexivity.
  - exists unit_die, 5%Q, (5 - 10)%Q. split; [reflexivity | reflexivity].
Qed.




(** ** Geometry builder *)

Lemma py_int_inject_Z (z : Z) : py_int (inject_Z z) = z.
Proof.
  unfold py_int. destruct (Qle_bool 0 (inject_Z z)).
  - apply Qfloor_Z.
  - apply Qceiling_Z.
Qed.

Lemma Qeq_bool_pos (q : Q) : (0 < q)%Q -> Qeq_bool q 0 = false.
Proof.
  intros H. destruct (Qeq_bool q 0) eqn:E; [|reflexivity].
  apply Qeq_bool_eq in E. rewrite E in H. discriminate H.
Qed.

Lemma py_floordiv_int (a b : Q) :
  (0 < b)%Q ->
  rbind (py_floordiv a b) (fun q => Ok (py_int q)) = Ok (Qfloor (a / b)).
Proof.
  intros Hb. unfold py_floordiv. rewrite Qeq_bool_pos by exact Hb.
  simpl. rewrite py_int_inject_Z. reflexivity.
Qed.





Lemma py_range_length (n : Z) : length (py_range n) = Z.to_nat n.
Proof. unfold py_range. rewrite length_map, length_seq. reflexivity. Qed.

Lemma grid_length {A B C} (f : A -> B -> C) (l1 : list A) (l2 : list B) :
  length (flat_map (fun a => map (f a) l2) l1)
  = (length l1 * length l2)%nat.
Proof.
  induction l1 as [|a l1 IH]; simpl; [reflexivity|].
  rewrite length_app, length_map, IH. reflexivity.
Qed.

Lemma grid_empty_inner {A B C} (f : A -> B -> C) (l1 : list A) :
  flat_map (fun a => map (f a) []) l1 = [].
Proof. induction l1 as [|a l1 IH]; [reflexivity | exact IH]. Qed.

Lemma rmapM_uniform {A B} (f : A -> result (list B)) (l : list A) (k : nat) :
  (forall a, exists bs, f a = Ok bs /\ length bs = k) ->
  exists tiles, rmapM f l = Ok tiles
                /\ length (concat tiles) = (length l * k)%nat.
Proof.
  intros Hf. induction l as [|a l (tiles & Ht & Hlen)]; simpl.
  - exists []. split; reflexivity.
  - destruct (Hf a) as (bs & Hbs & Hk). rewrite Hbs, Ht. simpl.
    exists (bs :: tiles). split; [reflexivity|].
    simpl. rewrite length_app, Hlen, Hk. reflexivity.
Qed.

Lemma np_arange_ok (start stop step : Q) :
  (0 < step)%Q -> exists l, np_arange start stop step = Ok l.
Proof.
  intros H. unfold np_arange. rewrite Qeq_bool_pos by exact H. eauto.
Qed.

Lemma shot_positions_ok (sw sh : Q) (s : Substrate) :
  (0 < sw)%Q -> (0 < sh)%Q ->
  exists xs ys, shot_positions sw sh s = Ok (xs, ys).
Proof.
  intros Hw Hh. destruct s as [rad er | pw ph el]; simpl.
  - destruct (np_arange_ok (- rad) rad sw Hw) as [xs ->].
    destruct (np_arange_ok (- rad) rad sh Hh) as [ys ->]. simpl. eauto.
  - destruct (np_arange_ok 0 pw sw Hw) as [xs ->].
    destruct (np_arange_ok 0 ph sh Hh) as [ys ->]. simpl. eauto.
Qed.

Section GeometryProperties.
Variables sw sh dw dh sx sy : Q.
Hypothesis sw_pos : (0 < sw)%Q.
Hypothesis sh_pos : (0 < sh)%Q.
Hypothesis dw_pos : (0 < dw)%Q.
Hypothesis dh_pos : (0 < dh)%Q.
Hypothesis sx_nonneg : (0 <= sx)%Q.
Hypothesis sy_nonneg : (0 <= sy)%Q.

Local Abbreviation nx := (Qfloor ((sw + sx) / (dw + sx))).
Local Abbreviation ny := (Qfloor ((sh + sy) / (dh + sy))).

Lemma num_dice_x_floor : num_dice_x sw dw sx = Ok nx.
Proof. unfold num_dice_x. apply py_floordiv_int. lra. Qed.

Lemma num_dice_y_floor : num_dice_y sh dh sy = Ok ny.
Proof. unfold num_dice_y. apply py_floordiv_int. lra. Qed.

Lemma shot_dice_grid (shot_x shot_y : Q) :
  shot_dice sw sh dw dh sx sy shot_x shot_y
  = Ok (flat_map (fun i => map (place_die dw dh sx sy shot_x shot_y i)
                               (py_range ny))
                 (py_range nx)).
Proof.
  unfold shot_dice. rewrite num_dice_x_floor, num_dice_y_floor. reflexivity.
Qed.

Lemma compute_geometry_ok (s : Substrate) :
  exists xs ys ds,
    shot_positions sw sh s = Ok (xs, ys)
    /\ compute_geometry sw sh dw dh sx sy s = Ok ds
    /\ length ds
       = (length xs * length ys * (Z.to_nat nx * Z.to_nat ny))%nat.
Proof.
  destruct (shot_positions_ok sw sh s sw_pos sh_pos) as (xs & ys & Hpos).
  exists xs, ys. unfold compute_geometry. rewrite Hpos. simpl.
  destruct (rmapM_uniform
              (fun '(shot_x, shot_y) =>
                 shot_dice sw sh dw dh sx sy shot_x shot_y)
              (flat_map (fun shot_x => map (pair shot_x) ys) xs)
              (Z.to_nat nx * Z.to_nat ny)%nat)
    as (tiles & Ht & Hlen).
  { intros [shot_x shot_y]. eexists. split; [apply shot_dice_grid|].
    rewrite grid_length, !py_range_length. reflexivity. }
  rewrite Ht. simpl. exists (concat tiles). split; [reflexivity|].
  split; [reflexivity|]. rewrite Hlen, grid_length. reflexivity.
Qed.

End GeometryProperties.


(** ** Yield model *)

Local Open Scope R_scope.

Lemma defect_parameter_nonneg (defect_rate critical_area : R) :
  0 <= defect_rate -> 0 <= critical_area ->
  0 <= defect_rate * (critical_area / 100).
Proof. intros Hr Ha. apply Rmult_le_pos; lra. Qed.

Lemma exp_monotone (a b : R) : a <= b -> exp a <= exp b.
Proof.
  intros [Hlt | ->].
  - left. apply exp_increasing. exact Hlt.
  - right. reflexivity.
Qed.



Lemma moore_ok (D : R) :
  0 <= D ->
  (if Rlt_dec D 0 then Raise ValueError else Ok (exp (- sqrt D)))
  = Ok (exp (- sqrt D)).
Proof. intros H. destruct (Rlt_dec D 0) as [Hneg|_]; [lra | reflexivity]. Qed.

Lemma seeds_ok (D : R) :
  0 <= D ->
  (if Req_dec_T (1 + D) 0 then Raise ZeroDivisionError else Ok (1 / (1 + D)))
  = Ok (1 / (1 + D)).
Proof.
  intros H. destruct (Req_dec_T (1 + D) 0) as [E|_]; [lra | reflexivity].
Qed.



(** C8: for the Poisson, Moore and Seeds models and a non-negative
    critical area, a larger non-negative defect rate never gives a larger
    yield fraction. *)
Theorem compute_yield_fraction_monotone
    (critical_area r1 r2 : R) (model : string) :
  0 <= critical_area -> 0 <= r1 -> r1 <= r2 ->
  model = "Poisson"%string \/ model = "Moore"%string
  \/ model = "Seeds"%string ->
  exists y1 y2,
    compute_yield_fraction r1 critical_area model = Ok y1
    /\ compute_yield_fraction r2 critical_area model = Ok y2
    /\ y2 <= y1.
Proof.
  intros Ha H1 H12 Hm.
  set (D1 := r1 * (critical_area / 100)).
  set (D2 := r2 * (critical_area / 100)).
  assert (HD1 : 0 <= D1) by (apply defect_parameter_nonneg; lra).
  assert (HD2 : 0 <= D2) by (apply defect_parameter_nonneg; lra).
  assert (HD : D1 <= D2).
  { subst D1 D2. apply Rmult_le_compat_r; lra. }
  unfold compute_yield_fraction. fold D1 D2.
  destruct Hm as [-> | [-> | ->]]; simpl.
  - exists (exp (- D1)), (exp (- D2)).
    repeat split. apply exp_monotone. lra.
  - rewrite !moore_ok by assumption.
    exists (exp (- sqrt D1)), (exp (- sqrt D2)).
    repeat split. apply exp_monotone.
    pose proof (sqrt_le_1 D1 D2 HD1 HD2 HD). lra.
  - rewrite !seeds_ok by assumption.
    exists (1 / (1 + D1)), (1 / (1 + D2)).
    repeat split. unfold Rdiv. rewrite !Rmult_1_l.
    apply Rinv_le_contravar; lra.
Qed.

Lemma compute_yield_fraction_monotone_witness :
  exists y1 y2,
    compute_yield_fraction 1 100 "Seeds" = Ok y1
    /\ compute_yield_fraction 2 100 "Seeds" = Ok y2
    /\ y2 <= y1.
Proof.
  apply (compute_yield_fraction_monotone 100 1 2 "Seeds"); [lra | lra | lra |].
  right; right; reflexivity.
Defined.

Local Close Scope R_scope.

(** ** Store lemmas *)

Lemma status_at_app_l (h ext : heap) (l : loc) :
  (l < length h)%nat -> status_at (h ++ ext) l = status_at h l.
Proof.
  intros H. unfold status_at. rewrite lookup_app_l by exact H. reflexivity.
Qed.

Lemma status_at_lookup_eq (h h' : heap) (l : loc) :
  h' !! l = h !! l -> status_at h' l = status_at h l.
Proof. intros H. unfold status_at. rewrite H. reflexivity. Qed.

Lemma statuses_agree (h h' : heap) (ls : list loc) :
  (forall l, l ∈ ls -> h' !! l = h !! l) -> statuses h' ls = statuses h ls.
Proof.
  intros H. unfold statuses. apply map_ext_in. intros l Hl.
  apply status_at_lookup_eq, H, list_elem_of_In, Hl.
Qed.

Lemma statuses_fresh (h ext : heap) :
  statuses (h ++ ext) (seq (length h) (length ext))
  = map (fun die => Some (status die)) ext.
Proof.
  revert h. induction ext as [|die ext IH]; intros h; simpl; [reflexivity|].
  f_equal.
  - unfold status_at. rewrite lookup_app_r by lia.
    replace (length h - length h)%nat with 0%nat by lia. reflexivity.
  - specialize (IH (h ++ [die])).
    rewrite length_app in IH. simpl in IH.
    replace (length h + 1)%nat with (S (length h)) in IH by lia.
    rewrite <- app_assoc in IH. exact IH.
Qed.

Lemma count_dice_statuses (p : Status -> bool) (h1 h2 : heap)
    (ls1 ls2 : list loc) :
  statuses h1 ls1 = statuses h2 ls2 ->
  count_dice p h1 ls1 = count_dice p h2 ls2.
Proof.
  revert ls2. induction ls1 as [|d ls1 IH]; intros [|d2 ls2] H;
    simpl in *; try discriminate; [reflexivity|].
  injection H as Hd Hrest. rewrite Hd, (IH ls2 Hrest). reflexivity.
Qed.

Lemma count_dice_nonneg (p : Status -> bool) (h : heap) (ls : list loc) :
  0 <= count_dice p h ls.
Proof.
  induction ls as [|d ls IH]; simpl; [lia|].
  destruct (status_at h d) as [st|]; [destruct (p st)|]; lia.
Qed.

Lemma count_dice_either (h : heap) (ls : list loc) :
  count_dice (fun st => status_eqb st good || status_eqb st defective) h ls
  = count_dice (status_eqb good) h ls + count_dice (status_eqb defective) h ls.
Proof.
  induction ls as [|d ls IH]; simpl; [reflexivity|].
  destruct (status_at h d) as [[]|]; simpl; lia.
Qed.

Lemma count_dice_partition (h : heap) (ls : list loc) :
  Forall final_status (statuses h ls) ->
  count_dice (status_eqb good) h ls + count_dice (status_eqb defective) h ls
  + count_dice (status_eqb partial) h ls + count_dice (status_eqb lost) h ls
  = Z.of_nat (length ls).
Proof.
  induction ls as [|d ls IH]; intros H; [reflexivity|].
  simpl in H. apply Forall_cons in H as [Hd Hls]. specialize (IH Hls).
  cbn [count_dice length].
  destruct Hd as [-> | [-> | [-> | ->]]]; simpl; lia.
Qed.

(** ** Classification of the copies *)

Lemma classify_all_fresh (s : Substrate) (h ext : heap) :
  classify_all s (seq (length h) (length ext)) (h ++ ext)
  = h ++ map (fun die => set_status die (classify_die die s)) ext.
Proof.
  revert h. induction ext as [|die ext IH]; intros h; simpl; [reflexivity|].
  unfold classify_all in *. simpl. unfold classify_step at 2.
  rewrite lookup_app_r by lia.
  replace (length h - length h)%nat with 0%nat by lia. simpl.
  rewrite insert_app_r_alt by lia.
  replace (length h - length h)%nat with 0%nat by lia. simpl.
  specialize (IH (h ++ [set_status die (classify_die die s)])).
  rewrite length_app in IH. simpl in IH.
  replace (length h + 1)%nat with (S (length h)) in IH by lia.
  rewrite <- !app_assoc in IH. exact IH.
Qed.

(** ** The store under injection *)

Lemma injected_refl (ls : list loc) (h : heap) : injected ls h h.
Proof. split; [reflexivity | intros l; left; reflexivity]. Qed.

Lemma injected_trans (ls1 ls2 : list loc) (h1 h2 h3 : heap) :
  injected ls1 h1 h2 -> injected ls2 h2 h3 -> injected (ls1 ++ ls2) h1 h3.
Proof.
  intros [Hlen1 H1] [Hlen2 H2]. split; [congruence|]. intros l.
  destruct (H2 l) as [E2 | (Hin2 & die2 & st2 & Hl2 & Hgp2 & Hst2 & Hl3)].
  - destruct (H1 l) as [E1 | (Hin1 & die & st & Hl & Hgp & Hst & Hl2)].
    + left. congruence.
    + right. split; [apply elem_of_app; left; exact Hin1|].
      exists die, st. repeat split; try assumption. congruence.
  - destruct (H1 l) as [E1 | (Hin1 & die & st & Hl & Hgp & Hst & Hl2')].
    + right. split; [apply elem_of_app; right; exact Hin2|].
      exists die2, st2. repeat split; try assumption. congruence.
    + exfalso. rewrite Hl2 in Hl2'. injection Hl2' as ->.
      simpl in Hgp2. destruct Hst as [-> | ->]; discriminate.
Qed.

Lemma injected_outside (ls : list loc) (h h' : heap) (l : loc) :
  injected ls h h' -> l ∉ ls -> h' !! l = h !! l.
Proof.
  intros [_ H] Hl. destruct (H l) as [E | (Hin & _)]; [exact E | contradiction].
Qed.

Lemma injected_geometry (ls : list loc) (h h' : heap) (l : loc) (die : Die) :
  injected ls h h' -> h !! l = Some die ->
  exists die',
    h' !! l = Some die'
    /\ die_x die' = die_x die /\ die_y die' = die_y die
    /\ corners die' = corners die
    /\ (status die <> good_physical -> die' = die)
    /\ (status die' <> status die ->
        status die = good_physical
        /\ (status die' = good \/ status die' = defective)).
Proof.
  intros [_ H] Hl.
  destruct (H l) as [E | (_ & die0 & st & Hl0 & Hgp & Hst & Hl')].
  - exists die. rewrite E. repeat split; try assumption; congruence.
  - rewrite Hl in Hl0. injection Hl0 as <-.
    exists (set_status die st). repeat split; try assumption; simpl; tauto.
Qed.

Section EngineProperties.
Variable rng_state : Type.
Variable rng_seed : Z -> rng_state.
Variable rng_random : rng_state -> R * rng_state.

Local Abbreviation inject_loop yf ls w :=
  (fold_left (inject_step rng_random yf) ls w).

(** *** One step of the injection loop *)

Lemma inject_step_injected (yf : R) (w : World rng_state) (d : loc) :
  injected [d] (w_heap w) (w_heap (inject_step rng_random yf w d)).
Proof.
  unfold inject_step. destruct (w_heap w !! d) as [die|] eqn:Hd;
    [|apply injected_refl].
  destruct (status_eqb (status die) good_physical) eqn:Hgp;
    [|apply injected_refl].
  destruct (rng_random (w_rng w)) as [u g]. simpl.
  split; [apply length_insert|]. intros l.
  destruct (decide (d = l)) as [<-|Hne].
  - right. split; [apply elem_of_cons; left; reflexivity|].
    exists die, (if Rlt_dec u yf then good else defective).
    split; [exact Hd|].
    split; [destruct (status die); try discriminate; reflexivity|].
    split; [destruct (Rlt_dec u yf); tauto|].
    apply list_lookup_insert_eq. eapply lookup_lt_Some, Hd.
  - left. apply list_lookup_insert_ne, Hne.
Qed.

(** What one step leaves at [d] itself, and the generator after it. *)
Lemma inject_step_head (yf : R) (w : World rng_state) (d : loc)
    (rest : list (option Status)) :
  let w1 := inject_step rng_random yf w d in
  inject_statuses rng_random yf (status_at (w_heap w) d :: rest) (w_rng w)
  = let '(out, g2) := inject_statuses rng_random yf rest (w_rng w1) in
    (status_at (w_heap w1) d :: out, g2).
Proof.
  unfold inject_step, status_at.
  destruct (w_heap w !! d) as [die|] eqn:Hd; simpl.
  - destruct (status die) eqn:Hst; simpl; rewrite ?Hd, ?Hst;
      try reflexivity.
    destruct (rng_random (w_rng w)) as [u g]. simpl.
    rewrite list_lookup_insert_eq by (eapply lookup_lt_Some, Hd).
    reflexivity.
  - rewrite Hd. reflexivity.
Qed.

(** *** The whole loop *)

Lemma inject_loop_injected (yf : R) (ls : list loc) (w : World rng_state) :
  injected ls (w_heap w) (w_heap (inject_loop yf ls w)).
Proof.
  revert w. induction ls as [|d ls IH]; intros w; simpl.
  - apply injected_refl.
  - apply (injected_trans [d] ls _ _ _ (inject_step_injected yf w d)), IH.
Qed.

Lemma inject_loop_statuses (yf : R) (ls : list loc) (w : World rng_state) :
  NoDup ls ->
  inject_statuses rng_random yf (statuses (w_heap w) ls) (w_rng w)
  = (statuses (w_heap (inject_loop yf ls w)) ls,
     w_rng (inject_loop yf ls w)).
Proof.
  revert w. induction ls as [|d ls IH]; intros w Hnd; [reflexivity|].
  apply NoDup_cons in Hnd as [Hd Hnd].
  cbn [statuses map fold_left].
  rewrite inject_step_head.
  set (w1 := inject_step rng_random yf w d).
  pose proof (inject_step_injected yf w d) as Hstep. fold w1 in Hstep.
  pose proof (inject_loop_injected yf ls w1) as Hloop.
  assert (Hrest : statuses (w_heap w) ls = statuses (w_heap w1) ls).
  { symmetry. apply statuses_agree. intros l Hl.
    apply (injected_outside [d]); [exact Hstep|].
    intros Hin. apply elem_of_cons in Hin as [-> | Hin];
      [contradiction | inversion Hin]. }
  fold (statuses (w_heap w) ls). rewrite Hrest, (IH w1 Hnd).
  f_equal. f_equal. symmetry. apply status_at_lookup_eq.
  apply (injected_outside ls); assumption.
Qed.

(** No die of the list is left [good_physical]. *)
Lemma inject_loop_resolved (yf : R) (ls : list loc) (w : World rng_state)
    (l : loc) :
  l ∈ ls -> status_at (w_heap (inject_loop yf ls w)) l <> Some good_physical.
Proof.
  revert w. induction ls as [|d ls IH]; intros w Hl; [inversion Hl|].
  simpl. destruct (decide (l ∈ ls)) as [Hin|Hout]; [apply IH, Hin|].
  apply elem_of_cons in Hl as [->|Hl]; [|contradiction].
  rewrite (status_at_lookup_eq (w_heap (inject_step rng_random yf w d)))
    by (apply (injected_outside ls); [apply inject_loop_injected | exact Hout]).
  unfold inject_step, status_at.
  destruct (w_heap w !! d) as [die|] eqn:Hd; [|rewrite Hd; discriminate].
  destruct (status die) eqn:Hst; simpl; rewrite ?Hd, ?Hst; try discriminate.
  destruct (rng_random (w_rng w)) as [u g]. simpl.
  rewrite list_lookup_insert_eq by (eapply lookup_lt_Some, Hd).
  simpl. destruct (Rlt_dec u yf); discriminate.
Qed.

Lemma inject_statuses_final (yf : R) (contents : list Die) (s : Substrate)
    (g : rng_state) :
  Forall final_status (trial_statuses rng_random s yf g contents).
Proof.
  unfold trial_statuses. revert g.
  induction contents as [|die contents IH]; intros g; simpl; [constructor|].
  unfold classify_die.
  destruct (inside_count s (corners die) =? 4).
  - destruct (rng_random g) as [u g1]. specialize (IH g1).
    destruct (inject_statuses rng_random yf _ g1) as [out g2]. simpl in *.
    constructor; [|exact IH].
    unfold final_status. destruct (Rlt_dec u yf); tauto.
  - specialize (IH g).
    destruct (inject_statuses rng_random yf _ g) as [out g2].
    destruct (0 <? inside_count s (corners die)); simpl in *;
      (constructor; [unfold final_status; tauto | exact IH]).
Qed.


(** *** One trial *)

Lemma fab_yield_ok (cg cd : Z) :
  (if 0 <? cg + cd then py_truediv cg (cg + cd) else Ok 0%Q)
  = Ok (if 0 <? cg + cd then inject_Z cg / inject_Z (cg + cd) else 0)%Q.
Proof.
  destruct (Z.ltb_spec 0 (cg + cd)) as [H|H]; [|reflexivity].
  unfold py_truediv. destruct (Z.eqb_spec (cg + cd) 0); [lia | reflexivity].
Qed.

Lemma run_trial_spec (base_dice : list loc) (s : Substrate) (yf : R)
    (seed : option Z) (w : World rng_state) :
  let contents := base_contents (w_heap w) base_dice in
  let g0 := match seed with Some n => rng_seed n | None => w_rng w end in
  exists r w',
    run_trial rng_seed rng_random base_dice s yf seed w = Ok (r, w')
    /\ res_dice r = seq (length (w_heap w)) (length contents)
    /\ length (w_heap w') = (length (w_heap w) + length contents)%nat
    /\ (forall l, (l < length (w_heap w))%nat ->
                  w_heap w' !! l = w_heap w !! l)
    /\ statuses (w_heap w') (res_dice r)
       = trial_statuses rng_random s yf g0 contents
    /\ tallied (w_heap w') r.
Proof.
  intros contents g0.
  unfold run_trial, copy_dice, inject_defects.
  fold (base_contents (w_heap w) base_dice). fold contents.
  cbv beta iota zeta.
  rewrite classify_all_fresh.
  set (h2 := w_heap w ++ map (fun die => set_status die (classify_die die s))
                             contents).
  assert (Hw1 : match seed with
                | Some n => mkWorld (w_heap (mkWorld h2 (w_rng w))) (rng_seed n)
                | None => mkWorld h2 (w_rng w)
                end = mkWorld h2 g0).
  { subst g0. destruct seed; reflexivity. }
  rewrite Hw1. clear Hw1.
  set (ls := seq (length (w_heap w)) (length contents)).
  set (w3 := fold_left (inject_step rng_random yf) ls (mkWorld h2 g0)).
  rewrite fab_yield_ok. simpl.
  eexists. exists w3. split; [reflexivity|]. simpl.
  pose proof (inject_loop_injected yf ls (mkWorld h2 g0)) as Hinj.
  fold w3 in Hinj. simpl in Hinj.
  assert (Hlen2 : length h2 = (length (w_heap w) + length contents)%nat).
  { subst h2. rewrite length_app, length_map. reflexivity. }
  split; [reflexivity|].
  split; [destruct Hinj as [-> _]; exact Hlen2|].
  split.
  { intros l Hl. rewrite (injected_outside ls h2 (w_heap w3) l Hinj).
    - subst h2. apply lookup_app_l, Hl.
    - subst ls. rewrite elem_of_seq. lia. }
  split.
  { pose proof (inject_loop_statuses yf ls (mkWorld h2 g0) (NoDup_seq _ _))
      as Hst.
    fold w3 in Hst. simpl in Hst. unfold trial_statuses.
    assert (Hcls : statuses h2 ls
                   = map (fun die => Some (classify_die die s)) contents).
    { subst h2 ls.
      rewrite <- (length_map (fun die => set_status die (classify_die die s))
                             contents).
      rewrite statuses_fresh, map_map. reflexivity. }
    rewrite <- Hcls, Hst. reflexivity. }
  repeat split.
Qed.

(** *** The loop over the trials *)

Lemma base_contents_agree (h h' : heap) (base_dice : list loc) :
  live h base_dice ->
  (forall l, (l < length h)%nat -> h' !! l = h !! l) ->
  base_contents h' base_dice = base_contents h base_dice.
Proof.
  intros Hlive Hpre. unfold base_contents.
  induction Hlive as [|d ls Hd _ IH]; [reflexivity|].
  cbn [omap list_omap]. rewrite (Hpre d Hd), IH. reflexivity.
Qed.

Lemma live_weaken (h h' : heap) (ls : list loc) :
  (length h <= length h')%nat -> live h ls -> live h' ls.
Proof.
  intros Hle Hlive. unfold live in *.
  eapply Forall_impl; [exact Hlive|]. simpl. intros l Hl. lia.
Qed.

Lemma tallied_agree (h h' : heap) (r : TrialResult) :
  statuses h' (res_dice r) = statuses h (res_dice r) ->
  tallied h r -> tallied h' r.
Proof.
  intros Hst (Ht & Hg & Hd & Hp & Hl & Hgp & Hfy).
  unfold tallied.
  rewrite !(count_dice_statuses _ h' h (res_dice r) (res_dice r) Hst).
  repeat split; assumption.
Qed.

Lemma trial_in_extend (h0 h1 h2 h3 : heap) (r : TrialResult) :
  (length h0 <= length h1)%nat ->
  (forall l, (l < length h2)%nat -> h3 !! l = h2 !! l) ->
  (length h2 <= length h3)%nat ->
  trial_in h1 h2 r -> trial_in h0 h3 r.
Proof.
  intros H01 Hpre H23 (Hdice & Htal & Hfin).
  assert (Hst : statuses h3 (res_dice r) = statuses h2 (res_dice r)).
  { apply statuses_agree. intros l Hl. apply Hpre, Hdice, Hl. }
  split; [intros l Hl; specialize (Hdice l Hl); lia|].
  split; [apply (tallied_agree h2); assumption|].
  rewrite Hst. exact Hfin.
Qed.

Lemma run_trials_spec (runs : list Z) (base_dice : list loc) (s : Substrate)
    (yf : R) (random_seed : option Z) (w : World rng_state) :
  exists rs w',
    run_trials rng_seed rng_random runs base_dice s yf random_seed w
    = Ok (rs, w')
    /\ length rs = length runs
    /\ (length (w_heap w) <= length (w_heap w'))%nat
    /\ (forall l, (l < length (w_heap w))%nat ->
                  w_heap w' !! l = w_heap w !! l)
    /\ (forall k r, rs !! k = Some r ->
          trial_in (w_heap w) (w_heap w') r
          /\ forall b, random_seed = Some b -> live (w_heap w) base_dice ->
               exists run,
                 runs !! k = Some run
                 /\ statuses (w_heap w') (res_dice r)
                    = trial_statuses rng_random s yf (rng_seed (b + run))
                        (base_contents (w_heap w) base_dice)).
Proof.
  revert w. induction runs as [|run rest IH]; intros w.
  - exists [], w. simpl.
    split; [reflexivity|]. split; [reflexivity|]. split; [lia|].
    split; [reflexivity|]. intros k r Hk. discriminate Hk.
  - cbn [run_trials].
    set (seed := match random_seed with
                 | Some n => Some (n + run)
                 | None => None
                 end).
    destruct (run_trial_spec base_dice s yf seed w)
      as (r & w1 & Hrun & Hdice & Hlen1 & Hpre1 & Hst1 & Htal1).
    destruct (IH w1) as (rs & w2 & Hrest & Hlenrs & Hle2 & Hpre2 & Hres).
    rewrite Hrun. cbn [rbind]. rewrite Hrest. cbn [rbind].
    exists (r :: rs), w2.
    split; [reflexivity|].
    split; [simpl; congruence|].
    split; [lia|].
    split; [intros l Hl; rewrite Hpre2 by lia; apply Hpre1, Hl|].
    assert (Hin1 : forall l, l ∈ res_dice r ->
              (length (w_heap w) <= l < length (w_heap w1))%nat).
    { intros l Hl. rewrite Hdice in Hl. apply elem_of_seq in Hl. lia. }
    assert (Hst2 : statuses (w_heap w2) (res_dice r)
                   = statuses (w_heap w1) (res_dice r)).
    { apply statuses_agree. intros l Hl. apply Hpre2, Hin1, Hl. }
    intros [|k] r' Hk.
    + injection Hk as <-. split.
      * apply (trial_in_extend (w_heap w) (w_heap w) (w_heap w1) (w_heap w2));
          [lia | exact Hpre2 | exact Hle2 |].
        split; [exact Hin1|]. split; [exact Htal1|].
        rewrite Hst1. apply inject_statuses_final.
      * intros b Hb Hlive. exists run. split; [reflexivity|].
        rewrite Hst2, Hst1. subst seed. rewrite Hb. reflexivity.
    + destruct (Hres k r' Hk) as (Hin & Hseed). split.
      * apply (trial_in_extend (w_heap w) (w_heap w1) (w_heap w2) (w_heap w2));
          [lia | reflexivity | lia | exact Hin].
      * intros b Hb Hlive.
        destruct (Hseed b Hb) as (run' & Hrun' & Hst').
        { apply (live_weaken (w_heap w)); [lia | exact Hlive]. }
        exists run'. split; [exact Hrun'|].
        rewrite Hst'. f_equal.
        apply base_contents_agree; assumption.
Qed.

Lemma py_range_lookup (n : Z) (k : nat) (run : Z) :
  py_range n !! k = Some run -> run = Z.of_nat k /\ Z.of_nat k < n.
Proof.
  unfold py_range. rewrite list_lookup_fmap.
  destruct (seq 0 (Z.to_nat n) !! k) as [i|] eqn:Hk; [|discriminate].
  apply lookup_seq in Hk as [-> Hlt]. simpl. intros [= <-]. lia.
Qed.


Lemma run_simulation_spec (sim_runs : Z) (base_dice : list loc)
    (s : Substrate) (yf : R) (random_seed : option Z)
    (w : World rng_state) :
  exists rs w',
    run_simulation rng_seed rng_random sim_runs base_dice s yf random_seed w
    = Ok (rs, w')
    /\ length rs = Z.to_nat sim_runs
    /\ (forall l, (l < length (w_heap w))%nat ->
                  w_heap w' !! l = w_heap w !! l)
    /\ (forall k r, rs !! k = Some r ->
          trial_in (w_heap w) (w_heap w') r
          /\ forall b, random_seed = Some b -> live (w_heap w) base_dice ->
               statuses (w_heap w') (res_dice r)
               = trial_statuses rng_random s yf
                   (rng_seed (b + Z.of_nat k))
                   (base_contents (w_heap w) base_dice)).
Proof.
  unfold run_simulation.
  destruct (run_trials_spec (py_range sim_runs) base_dice s yf random_seed w)
    as (rs & w' & Hrun & Hlen & _ & Hpre & Hres).
  exists rs, w'. split; [exact Hrun|].
  split; [rewrite Hlen; apply py_range_length|].
  split; [exact Hpre|].
  intros k r Hk. destruct (Hres k r Hk) as [Hin Hseed].
  split; [exact Hin|]. intros b Hb Hlive.
  destruct (Hseed b Hb Hlive) as (run & Hrunk & Hst).
  apply py_range_lookup in Hrunk as [-> _]. exact Hst.
Qed.

Lemma tallied_bounds (h : heap) (r : TrialResult) :
  tallied h r ->
  0 <= res_good r /\ 0 <= res_defective r
  /\ res_good_physical r = res_good r + res_defective r.
Proof.
  intros (_ & Hg & Hd & _ & _ & Hgp & _).
  rewrite Hg, Hd, Hgp, count_dice_either.
  pose proof (count_dice_nonneg (status_eqb good) h (res_dice r)).
  pose proof (count_dice_nonneg (status_eqb defective) h (res_dice r)).
  lia.
Qed.

Lemma fab_yield_bounds (cg cd : Z) :
  0 <= cg -> 0 <= cd ->
  (0 <= (if 0 <? cg + cd then inject_Z cg / inject_Z (cg + cd) else 0)
   /\ (if 0 <? cg + cd then inject_Z cg / inject_Z (cg + cd) else 0) <= 1)%Q.
Proof.
  intros Hg Hd. destruct (Z.ltb_spec 0 (cg + cd)) as [Hpos|_].
  - assert (Hden : (0 < inject_Z (cg + cd))%Q).
    { change (inject_Z 0 < inject_Z (cg + cd))%Q.
      rewrite <- Zlt_Qlt. exact Hpos. }
    split.
    + apply Qle_shift_div_l; [exact Hden|].
      rewrite Qmult_0_l. change (inject_Z 0 <= inject_Z cg)%Q.
      rewrite <- Zle_Qle. exact Hg.
    + apply Qle_shift_div_r; [exact Hden|].
      rewrite Qmult_1_l, <- Zle_Qle. lia.
  - split; discriminate.
Qed.

Lemma tallied_same (h1 h2 : heap) (r1 r2 : TrialResult) :
  tallied h1 r1 -> tallied h2 r2 ->
  statuses h1 (res_dice r1) = statuses h2 (res_dice r2) ->
  same_tallies r1 r2.
Proof.
  intros (Ht1 & Hg1 & Hd1 & Hp1 & Hl1 & Hgp1 & Hf1)
         (Ht2 & Hg2 & Hd2 & Hp2 & Hl2 & Hgp2 & Hf2) Hst.
  assert (Hlen : length (res_dice r1) = length (res_dice r2)).
  { apply (f_equal length) in Hst. unfold statuses in Hst.
    rewrite !length_map in Hst. exact Hst. }
  assert (Hg : res_good r1 = res_good r2)
    by (rewrite Hg1, Hg2; apply count_dice_statuses, Hst).
  assert (Hd : res_defective r1 = res_defective r2)
    by (rewrite Hd1, Hd2; apply count_dice_statuses, Hst).
  unfold same_tallies.
  split; [rewrite Ht1, Ht2, Hlen; reflexivity|].
  split; [rewrite Hgp1, Hgp2; apply count_dice_statuses, Hst|].
  split; [exact Hg|]. split; [exact Hd|].
  split; [rewrite Hp1, Hp2; apply count_dice_statuses, Hst|].
  split; [rewrite Hl1, Hl2; apply count_dice_statuses, Hst|].
  rewrite Hf1, Hf2, Hg, Hd. reflexivity.
Qed.

(** *** The claims on the runner and the injector *)


(** C3: every trial result [run_simulation] returns satisfies
    [good + defective + partial + lost = total], where [total] is the
    number of dice of the trial; [good_physical = good + defective];
    [fab_yield] is [good / (good + defective)] when that sum is positive
    and 0 otherwise, and lies between 0 and 1.  The tallies are the counts
    of the statuses found on the trial's dice in the final store. *)
Theorem trial_tallies (sim_runs : Z) (base_dice : list loc)
    (s : Substrate) (yf : R) (random_seed : option Z)
    (w : World rng_state) :
  exists rs w',
    run_simulation rng_seed rng_random sim_runs base_dice s yf
                   random_seed w = Ok (rs, w')
    /\ forall r, r ∈ rs ->
         res_good r + res_defective r + res_partial r + res_lost r
         = res_total r
         /\ res_total r = Z.of_nat (length (res_dice r))
         /\ res_good_physical r = res_good r + res_defective r
         /\ (0 < res_good r + res_defective r ->
             res_fab_yield r
             = (inject_Z (res_good r)
                / inject_Z (res_good r + res_defective r))%Q)
         /\ (res_good r + res_defective r <= 0 -> res_fab_yield r = 0%Q)
         /\ (0 <= res_fab_yield r /\ res_fab_yield r <= 1)%Q
         /\ tallied (w_heap w') r.
Proof.
  destruct (run_simulation_spec sim_runs base_dice s yf random_seed w)
    as (rs & w' & Hrun & _ & _ & Hres).
  exists rs, w'. split; [exact Hrun|]. intros r Hr.
  apply list_elem_of_lookup in Hr as [k Hk].
  destruct (Hres k r Hk) as [(_ & Htal & Hfin) _].
  pose proof (tallied_bounds _ _ Htal) as (Hg & Hd & Hgp).
  pose proof (count_dice_partition _ _ Hfin) as Hpart.
  pose proof (fab_yield_bounds _ _ Hg Hd) as Hfy.
  pose proof Htal as (Ht & Hg' & Hd' & Hp' & Hl' & _ & Hf').
  rewrite <- Hf' in Hfy.
  split; [rewrite Ht, Hg', Hd', Hp', Hl'; exact Hpart|].
  split; [exact Ht|]. split; [exact Hgp|].
  split.
  { intros Hpos. rewrite Hf'.
    destruct (Z.ltb_spec 0 (res_good r + res_defective r));
      [reflexivity | lia]. }
  split.
  { intros Hzero. rewrite Hf'.
    destruct (Z.ltb_spec 0 (res_good r + res_defective r));
      [lia | reflexivity]. }
  split; [exact Hfy | exact Htal].
Qed.

(** C9: [inject_defects] returns the list it was given and changes
    nothing but the status of dice of that list that are
    [good_physical], each of which becomes [good] or [defective]; a die
    in any other status is left as it is, and no die changes its [x],
    [y] or [corners].  [run_simulation] leaves every dict that was in
    the store when it was called, the base dice among them, unchanged:
    the dice of its results are new copies. *)
Theorem injection_frame :
  (forall (dice_list : list loc) (yf : R) (seed : option Z)
          (w : World rng_state),
      let res := inject_defects rng_seed rng_random dice_list yf seed w in
      fst res = dice_list
      /\ length (w_heap (snd res)) = length (w_heap w)
      /\ forall (l : loc) (die : Die),
           w_heap w !! l = Some die ->
           exists die',
             w_heap (snd res) !! l = Some die'
             /\ die_x die' = die_x die /\ die_y die' = die_y die
             /\ corners die' = corners die
             /\ (status die <> good_physical -> die' = die)
             /\ (l ∉ dice_list -> die' = die)
             /\ (status die' <> status die ->
                 status die = good_physical
                 /\ (status die' = good \/ status die' = defective))
             /\ (status die = good_physical -> l ∈ dice_list ->
                 status die' = good \/ status die' = defective))
  /\ (forall (sim_runs : Z) (base_dice : list loc) (s : Substrate) (yf : R)
             (random_seed : option Z) (w : World rng_state),
        exists rs w',
          run_simulation rng_seed rng_random sim_runs base_dice s yf
                         random_seed w = Ok (rs, w')
          /\ (forall l, (l < length (w_heap w))%nat ->
                        w_heap w' !! l = w_heap w !! l)
          /\ (forall r l, r ∈ rs -> l ∈ res_dice r ->
                          (length (w_heap w) <= l)%nat)).
Proof.
  split.
  - intros dice_list yf seed w res. subst res. unfold inject_defects.
    cbn [fst snd].
    set (w1 := match seed with
               | Some n => mkWorld (w_heap w) (rng_seed n)
               | None => w
               end).
    assert (Hw1 : w_heap w1 = w_heap w)
      by (subst w1; destruct seed; reflexivity).
    pose proof (inject_loop_injected yf dice_list w1) as Hinj.
    rewrite Hw1 in Hinj.
    split; [reflexivity|]. split; [apply Hinj|].
    intros l die Hl.
    destruct (injected_geometry _ _ _ l die Hinj Hl)
      as (die' & Hl' & Hx & Hy & Hc & Hkeep & Hchg).
    exists die'. split; [exact Hl'|].
    split; [exact Hx|]. split; [exact Hy|]. split; [exact Hc|].
    split; [exact Hkeep|].
    split.
    { intros Hout. pose proof (injected_outside _ _ _ l Hinj Hout) as E.
      congruence. }
    split; [exact Hchg|].
    intros Hgp Hin.
    pose proof (inject_loop_resolved yf dice_list w1 l Hin) as Hres.
    unfold status_at in Hres. rewrite Hl' in Hres.
    assert (Hne : status die' <> status die)
      by (intros E; apply Hres; congruence).
    apply (Hchg Hne).
  - intros sim_runs base_dice s yf random_seed w.
    destruct (run_simulation_spec sim_runs base_dice s yf random_seed w)
      as (rs & w' & Hrun & _ & Hpre & Hres).
    exists rs, w'. split; [exact Hrun|]. split; [exact Hpre|].
    intros r l Hr Hl. apply list_elem_of_lookup in Hr as [k Hk].
    destruct (Hres k r Hk) as [(Hdice & _) _].
    apply (Hdice l Hl).
Qed.

Lemma inject_defects_statuses (ls : list loc) (yf : R) (seed : Z)
    (w : World rng_state) :
  NoDup ls ->
  statuses (w_heap (snd (inject_defects rng_seed rng_random ls yf
                                        (Some seed) w))) ls
  = fst (inject_statuses rng_random yf (statuses (w_heap w) ls)
                         (rng_seed seed)).
Proof.
  intros Hnd. unfold inject_defects. cbn [snd].
  pose proof (inject_loop_statuses yf ls
                (mkWorld (w_heap w) (rng_seed seed)) Hnd) as H.
  cbn [w_heap w_rng] in H. rewrite H. reflexivity.
Qed.

(** C7: seeded injection is a function of the seed and of the statuses
    in list order: two calls of [inject_defects] with the same seed, on
    two lists of distinct dice carrying the same statuses in the same
    order, leave the same statuses.  In [run_simulation] with a seed,
    trial [k] leaves on its dice the statuses that injection seeded with
    [base_seed + k] gives to the classified base dice, whatever the
    number of trials: two runs over the same base dice agree on the
    statuses and tallies of every trial they both contain, so the first
    [n1] trials of a run of [n2 >= n1] trials are those of a run of
    [n1]. *)
Theorem injection_deterministic :
  (forall (yf : R) (seed : Z) (ls1 ls2 : list loc)
          (w1 w2 : World rng_state),
      NoDup ls1 -> NoDup ls2 ->
      statuses (w_heap w1) ls1 = statuses (w_heap w2) ls2 ->
      statuses (w_heap (snd (inject_defects rng_seed rng_random ls1 yf
                                            (Some seed) w1))) ls1
      = statuses (w_heap (snd (inject_defects rng_seed rng_random ls2 yf
                                              (Some seed) w2))) ls2)
  /\ (forall (sim_runs : Z) (base_dice : list loc) (s : Substrate)
             (yf : R) (base_seed : Z) (w : World rng_state),
        live (w_heap w) base_dice ->
        exists rs w',
          run_simulation rng_seed rng_random sim_runs base_dice s yf
                         (Some base_seed) w = Ok (rs, w')
          /\ length rs = Z.to_nat sim_runs
          /\ forall k r, rs !! k = Some r ->
               statuses (w_heap w') (res_dice r)
               = trial_statuses rng_random s yf
                   (rng_seed (base_seed + Z.of_nat k))
                   (base_contents (w_heap w) base_dice))
  /\ (forall (n1 n2 : Z) (base1 base2 : list loc) (s : Substrate)
             (yf : R) (base_seed : Z) (wa wb : World rng_state),
        n1 <= n2 ->
        live (w_heap wa) base1 -> live (w_heap wb) base2 ->
        base_contents (w_heap wa) base1 = base_contents (w_heap wb) base2 ->
        exists rs1 wa' rs2 wb',
          run_simulation rng_seed rng_random n1 base1 s yf
                         (Some base_seed) wa = Ok (rs1, wa')
          /\ run_simulation rng_seed rng_random n2 base2 s yf
                            (Some base_seed) wb = Ok (rs2, wb')
          /\ forall k : nat, (k < Z.to_nat n1)%nat ->
               exists r1 r2,
                 rs1 !! k = Some r1 /\ rs2 !! k = Some r2
                 /\ statuses (w_heap wa') (res_dice r1)
                    = statuses (w_heap wb') (res_dice r2)
                 /\ same_tallies r1 r2).
Proof.
  split.
  { intros yf seed ls1 ls2 w1 w2 Hnd1 Hnd2 Hst.
    rewrite !inject_defects_statuses by assumption.
    rewrite Hst. reflexivity. }
  split.
  { intros sim_runs base_dice s yf base_seed w Hlive.
    destruct (run_simulation_spec sim_runs base_dice s yf (Some base_seed) w)
      as (rs & w' & Hrun & Hlen & _ & Hres).
    exists rs, w'. split; [exact Hrun|]. split; [exact Hlen|].
    intros k r Hk. destruct (Hres k r Hk) as [_ Hseed].
    apply (Hseed base_seed eq_refl Hlive). }
  intros n1 n2 base1 base2 s yf base_seed wa wb Hle Hlive1 Hlive2 Hbase.
  destruct (run_simulation_spec n1 base1 s yf (Some base_seed) wa)
    as (rs1 & wa' & Hrun1 & Hlen1 & _ & Hres1).
  destruct (run_simulation_spec n2 base2 s yf (Some base_seed) wb)
    as (rs2 & wb' & Hrun2 & Hlen2 & _ & Hres2).
  exists rs1, wa', rs2, wb'.
  split; [exact Hrun1|]. split; [exact Hrun2|].
  intros k Hk.
  destruct (lookup_lt_is_Some_2 rs1 k) as [r1 Hr1]; [lia|].
  destruct (lookup_lt_is_Some_2 rs2 k) as [r2 Hr2]; [lia|].
  exists r1, r2. split; [exact Hr1|]. split; [exact Hr2|].
  destruct (Hres1 k r1 Hr1) as [(_ & Htal1 & _) Hseed1].
  destruct (Hres2 k r2 Hr2) as [(_ & Htal2 & _) Hseed2].
  assert (Hst : statuses (w_heap wa') (res_dice r1)
                = statuses (w_heap wb') (res_dice r2)).
  { rewrite (Hseed1 base_seed eq_refl Hlive1),
            (Hseed2 base_seed eq_refl Hlive2), Hbase.
    reflexivity. }
  split; [exact Hst|].
  apply (tallied_same (w_heap wa') (w_heap wb')); assumption.
Qed.

End EngineProperties.

(** ** The engine on examples *)



Lemma trial_tallies_witness :
  exists rs w',
    run_simulation cyc_seed cyc_random 2 [0%nat] no_area_panel 1%R (Some 42)
                   one_die_world
    = Ok (rs, w')
    /\ length rs = 2%nat
    /\ forall r, r ∈ rs -> res_lost r = 1 /\ res_fab_yield r = 0%Q.
Proof.
  destruct (trial_tallies Z cyc_seed cyc_random 2 [0%nat] no_area_panel 1%R
                          (Some 42) one_die_world)
    as (rs & w' & Hrun & Hall).
  exists rs, w'. split; [exact Hrun|].
  assert (E : run_simulation cyc_seed cyc_random 2 [0%nat] no_area_panel 1%R
                             (Some 42) one_die_world
              = Ok ([ mkTrialResult 1 0 0 0 0 1 0 [1%nat];
                      mkTrialResult 1 0 0 0 0 1 0 [2%nat] ],
                    mkWorld [ unit_die; set_status unit_die lost;
                              set_status unit_die lost ] 43))
    by reflexivity.
  rewrite E in Hrun. injection Hrun as <- <-.
  split; [reflexivity|]. intros r Hr.
  destruct (Hall r Hr) as (_ & _ & _ & _ & Hzero & _).
  apply elem_of_cons in Hr as [-> | Hr];
    [|apply elem_of_cons in Hr as [-> | Hr]; [|inversion Hr]].
  - split; [reflexivity | apply Hzero; simpl; lia].
  - split; [reflexivity | apply Hzero; simpl; lia].
Defined.

Lemma injection_frame_witness :
  (exists die',
      w_heap (snd (inject_defects cyc_seed cyc_random [0%nat; 1%nat] 1%R
                                  (Some 42) classified_world)) !! 0%nat
      = Some die'
      /\ corners die' = corners unit_die
      /\ (status die' = good \/ status die' = defective))
  /\ (exists die',
        w_heap (snd (inject_defects cyc_seed cyc_random [0%nat; 1%nat] 1%R
                                    (Some 42) classified_world)) !! 1%nat
        = Some die'
        /\ die' = set_status unit_die lost)
  /\ exists rs w',
       run_simulation cyc_seed cyc_random 3 [0%nat] small_wafer 1%R (Some 42)
                      one_die_world
       = Ok (rs, w')
       /\ w_heap w' !! 0%nat = Some unit_die.
Proof.
  pose proof (injection_frame Z cyc_seed cyc_random) as [Hinj Hrun].
  split; [|split].
  - destruct (Hinj [0%nat; 1%nat] 1%R (Some 42) classified_world)
      as (_ & _ & Hdie).
    destruct (Hdie 0%nat (set_status unit_die good_physical) eq_refl)
      as (die' & Hl & _ & _ & Hc & _ & _ & _ & Hres).
    exists die'. split; [exact Hl|]. split; [exact Hc|].
    apply Hres; [reflexivity|]. apply elem_of_cons. left. reflexivity.
  - destruct (Hinj [0%nat; 1%nat] 1%R (Some 42) classified_world)
      as (_ & _ & Hdie).
    destruct (Hdie 1%nat (set_status unit_die lost) eq_refl)
      as (die' & Hl & _ & _ & _ & Hkeep & _).
    exists die'. split; [exact Hl|]. apply Hkeep. discriminate.
  - destruct (Hrun 3 [0%nat] small_wafer 1%R (Some 42) one_die_world)
      as (rs & w' & Hok & Hpre & _).
    exists rs, w'. split; [exact Hok|].
    rewrite (Hpre 0%nat); [reflexivity | simpl; lia].
Defined.

Lemma injection_deterministic_witness :
  statuses (w_heap (snd (inject_defects cyc_seed cyc_random [0%nat; 1%nat]
                                        (1 / 2)%R (Some 42)
                                        classified_world)))
           [0%nat; 1%nat]
  = statuses (w_heap (snd (inject_defects cyc_seed cyc_random [1%nat; 0%nat]
                             (1 / 2)%R (Some 42)
                             (mkWorld [set_status unit_die lost;
                                       set_status unit_die good_physical] 7))))
             [1%nat; 0%nat]
  /\ exists rs1 wa' rs2 wb',
       run_simulation cyc_seed cyc_random 5 [0%nat] small_wafer (1 / 2)%R
                      (Some 42) one_die_world
       = Ok (rs1, wa')
       /\ run_simulation cyc_seed cyc_random 10 [0%nat] small_wafer (1 / 2)%R
                         (Some 42) one_die_world
          = Ok (rs2, wb')
       /\ forall k : nat, (k < 5)%nat ->
            exists r1 r2,
              rs1 !! k = Some r1 /\ rs2 !! k = Some r2
              /\ statuses (w_heap wa') (res_dice r1)
                 = statuses (w_heap wb') (res_dice r2)
              /\ same_tallies r1 r2.
Proof.
  pose proof (injection_deterministic Z cyc_seed cyc_random)
    as (Hinj & _ & Hruns).
  assert (Hlive : live (w_heap one_die_world) [0%nat]).
  { constructor; [simpl; lia | constructor]. }
  assert (Hnd1 : NoDup [0%nat; 1%nat]).
  { apply NoDup_cons. split; [|apply NoDup_singleton].
    intros H. apply elem_of_cons in H as [H | H];
      [discriminate | inversion H]. }
  assert (Hnd2 : NoDup [1%nat; 0%nat]).
  { apply NoDup_cons. split; [|apply NoDup_singleton].
    intros H. apply elem_of_cons in H as [H | H];
      [discriminate | inversion H]. }
  split.
  - apply Hinj; [exact Hnd1 | exact Hnd2 | reflexivity].
  - apply (Hruns 5 10 [0%nat] [0%nat] small_wafer (1 / 2)%R 42
                 one_die_world one_die_world);
      [lia | exact Hlive | exact Hlive | reflexivity].
Defined.

(** * Further properties of the engine *)

(** ** Yield model: range, failures, monotonicity *)

Local Open Scope R_scope.

Lemma exp_neg_le_1 (x : R) : 0 <= x -> exp (- x) <= 1.
Proof.
  intros H. rewrite <- exp_0. apply exp_monotone. lra.
Qed.

Lemma exp_neg_lt_1 (x : R) : 0 < x -> exp (- x) < 1.
Proof.
  intros H. rewrite <- exp_0. apply exp_increasing. lra.
Qed.

(** [(1 - exp(-x)) / x] lies in (0, 1] for positive [x]. *)
Lemma decay_quotient_range (x : R) :
  0 < x -> 0 < (1 - exp (- x)) / x <= 1.
Proof.
  intros Hx. pose proof (exp_neg_lt_1 x Hx) as Hlt.
  pose proof (exp_ineq1_le (- x)) as Hge.
  split.
  - apply Rdiv_lt_0_compat; lra.
  - apply (Rmult_le_reg_r x); [exact Hx|].
    unfold Rdiv. rewrite Rmult_assoc, Rinv_l by lra. lra.
Qed.



Lemma square_range (q : R) : 0 < q <= 1 -> 0 < q ^ 2 <= 1.
Proof. intros [H0 H1]. split; nra. Qed.


(** For non-negative inputs every model, named or not, returns a yield
    fraction in (0, 1] and raises nothing. *)
Theorem compute_yield_fraction_range
    (defect_rate critical_area : R) (model : string) :
  0 <= defect_rate -> 0 <= critical_area ->
  exists y,
    compute_yield_fraction defect_rate critical_area model = Ok y
    /\ 0 < y <= 1.
Proof.
  intros Hr Ha.
  pose proof (defect_parameter_nonneg _ _ Hr Ha) as HD.
  unfold compute_yield_fraction.
  set (D := defect_rate * (critical_area / 100)) in *.
  assert (Hpoisson : 0 < exp (- D) <= 1)
    by (split; [apply exp_pos | apply exp_neg_le_1; exact HD]).
  destruct (String.eqb model "Poisson"); [eauto|].
  destruct (String.eqb model "Murphy").
  { destruct (Req_dec_T D 0) as [_|Hne];
      [exists 1; split; [reflexivity | lra]|].
    eexists. split; [reflexivity|].
    apply square_range, decay_quotient_range. lra. }
  destruct (String.eqb model "Rectangular").
  { destruct (Req_dec_T D 0) as [_|Hne];
      [exists 1; split; [reflexivity | lra]|].
    eexists. split; [reflexivity|]. apply decay_quotient_range. lra. }
  destruct (String.eqb model "Moore").
  { rewrite moore_ok by exact HD. eexists. split; [reflexivity|].
    split; [apply exp_pos | apply exp_neg_le_1, sqrt_pos]. }
  destruct (String.eqb model "Seeds"); [|eauto].
  rewrite seeds_ok by exact HD. eexists. split; [reflexivity|].
  split.
  - apply Rdiv_lt_0_compat; lra.
  - apply (Rmult_le_reg_r (1 + D)); [lra|].
    unfold Rdiv. rewrite Rmult_assoc, Rinv_l by lra. lra.
Qed.

Lemma compute_yield_fraction_range_witness :
  exists y, compute_yield_fraction (1 / 2) 25 "Murphy" = Ok y /\ 0 < y <= 1.
Proof.
  apply (compute_yield_fraction_range (1 / 2) 25 "Murphy"); lra.
Defined.




Local Close Scope R_scope.


(** ** Classifier: edge loss *)

Lemma inside_count_zero_iff (s : Substrate) (cs : list (Q * Q)) :
  inside_count s cs = 0 <-> Forall (fun c => corner_inside s c = false) cs.
Proof.
  rewrite inside_count_filter.
  induction cs as [|c cs IH]; simpl.
  - split; [constructor | reflexivity].
  - destruct (corner_inside s c) eqn:Hc; simpl.
    + split; [lia | intros H; inversion H; congruence].
    + rewrite IH. split.
      * constructor; assumption.
      * intros H. inversion H. assumption.
Qed.

Lemma classify_die_lost_iff (die : Die) (s : Substrate) :
  classify_die die s = lost
  <-> Forall (fun c => corner_inside s c = false) (corners die).
Proof.
  rewrite <- inside_count_zero_iff. unfold classify_die.
  pose proof (inside_count_filter s (corners die)) as Hn.
  destruct (Z.eqb_spec (inside_count s (corners die)) 4) as [E|_];
    [split; [discriminate | lia]|].
  destruct (Z.ltb_spec 0 (inside_count s (corners die))) as [Hpos|Hle];
    split; try discriminate; try lia. reflexivity.
Qed.

Lemma classify_die_good_physical_iff (die : Die) (s : Substrate) :
  length (corners die) = 4%nat ->
  (classify_die die s = good_physical
   <-> Forall (fun c => corner_inside s c = true) (corners die)).
Proof.
  intros H4. rewrite <- filter_length_all, H4. unfold classify_die.
  rewrite inside_count_filter.
  set (n := length (List.filter (corner_inside s) (corners die))).
  destruct (Z.eqb_spec (Z.of_nat n) 4) as [E|E].
  - split; [lia | reflexivity].
  - split; [|lia]. destruct (0 <? Z.of_nat n); discriminate.
Qed.

Lemma is_inside_wafer_grow (x y er1 er2 : Q) :
  (0 <= er1)%Q -> (er1 <= er2)%Q ->
  is_inside_wafer x y er1 = true -> is_inside_wafer x y er2 = true.
Proof.
  rewrite !is_inside_wafer_spec. intros H0 H12 H.
  eapply Qle_trans; [exact H|]. simpl. nra.
Qed.

Lemma is_inside_panel_shrink (x y pw ph m1 m2 : Q) :
  (m1 <= m2)%Q ->
  is_inside_panel x y pw ph m2 = true -> is_inside_panel x y pw ph m1 = true.
Proof.
  rewrite !is_inside_panel_spec. intros Hm (H1 & H2 & H3 & H4).
  repeat split; lra.
Qed.

Lemma classify_die_inclusion (die : Die) (s1 s2 : Substrate) :
  length (corners die) = 4%nat ->
  (forall c, corner_inside s1 c = true -> corner_inside s2 c = true) ->
  (classify_die die s1 = good_physical -> classify_die die s2 = good_physical)
  /\ (classify_die die s2 = lost -> classify_die die s1 = lost).
Proof.
  intros H4 Hincl. split.
  - rewrite !classify_die_good_physical_iff by exact H4.
    intros H. eapply Forall_impl; [exact H | exact Hincl].
  - rewrite !classify_die_lost_iff.
    intros H. eapply Forall_impl; [exact H|]. simpl. intros c Hc.
    destruct (corner_inside s1 c) eqn:E; [|reflexivity].
    apply Hincl in E. congruence.
Qed.

(** Less edge loss never demotes a die with 4 corners: on a wafer, a
    larger non-negative effective radius keeps every [good_physical] die
    [good_physical] and a die that is [lost] was [lost] before; on a panel
    the same holds for a smaller margin. *)
Theorem edge_loss_monotone (die : Die) :
  length (corners die) = 4%nat ->
  (forall rad1 rad2 er1 er2 : Q,
      (0 <= er1)%Q -> (er1 <= er2)%Q ->
      (classify_die die (Wafer rad1 er1) = good_physical ->
       classify_die die (Wafer rad2 er2) = good_physical)
      /\ (classify_die die (Wafer rad2 er2) = lost ->
          classify_die die (Wafer rad1 er1) = lost))
  /\ (forall pw ph m1 m2 : Q,
        (m1 <= m2)%Q ->
        (classify_die die (Panel pw ph m2) = good_physical ->
         classify_die die (Panel pw ph m1) = good_physical)
        /\ (classify_die die (Panel pw ph m1) = lost ->
            classify_die die (Panel pw ph m2) = lost)).
Proof.
  intros H4. split.
  - intros rad1 rad2 er1 er2 H0 H12.
    apply classify_die_inclusion; [exact H4|].
    intros [cx cy]. simpl. apply is_inside_wafer_grow; assumption.
  - intros pw ph m1 m2 Hm.
    apply classify_die_inclusion; [exact H4|].
    intros [cx cy]. simpl. apply is_inside_panel_shrink; assumption.
Qed.

Lemma edge_loss_monotone_witness :
  classify_die unit_die (Wafer 5 3) = good_physical
  /\ classify_die unit_die (Panel 10 10 3) = lost.
Proof.
  assert (H4 : length (corners unit_die) = 4%nat) by reflexivity.
  destruct (edge_loss_monotone unit_die H4) as [Hw Hp].
  split.
  - apply (proj1 (Hw 5 5 2 3 ltac:(discriminate) ltac:(discriminate))%Q).
    reflexivity.
  - apply (proj2 (Hp 10 10 2 3 ltac:(discriminate))%Q). reflexivity.
Defined.

(** ** Geometry builder: placement, shape, count, zero pitch *)

Lemma py_range_In (n i : Z) : In i (py_range n) <-> 0 <= i < n.
Proof.
  unfold py_range. rewrite in_map_iff. split.
  - intros (k & <- & Hk). apply in_seq in Hk. lia.
  - intros H. exists (Z.to_nat i). split; [lia|]. apply in_seq. lia.
Qed.



Lemma shot_dice_In (sw sh dw dh sx sy shot_x shot_y : Q) (ds : list Die)
    (die : Die) :
  shot_dice sw sh dw dh sx sy shot_x shot_y = Ok ds -> In die ds ->
  exists nx ny i j,
    num_dice_x sw dw sx = Ok nx /\ num_dice_y sh dh sy = Ok ny
    /\ 0 <= i < nx /\ 0 <= j < ny
    /\ die = place_die dw dh sx sy shot_x shot_y i j.
Proof.
  unfold shot_dice.
  destruct (num_dice_x sw dw sx) as [nx|e]; [|discriminate].
  destruct (num_dice_y sh dh sy) as [ny|e]; [|discriminate].
  simpl. intros [= <-] Hin.
  apply in_flat_map in Hin as (i & Hi & Hin).
  apply in_map_iff in Hin as (j & <- & Hj).
  apply py_range_In in Hi, Hj.
  exists nx, ny, i, j. repeat split; try reflexivity; lia.
Qed.

Lemma rmapM_In {A B} (f : A -> result B) (l : list A) (bs : list B) (b : B) :
  rmapM f l = Ok bs -> In b bs -> exists a, In a l /\ f a = Ok b.
Proof.
  revert bs. induction l as [|a l IH]; intros bs; simpl.
  - intros [= <-] [].
  - destruct (f a) as [b0|e] eqn:Ha; [|discriminate]. simpl.
    destruct (rmapM f l) as [bs0|e]; [|discriminate]. simpl.
    intros [= <-] [<- | Hin].
    + exists a. split; [left; reflexivity | exact Ha].
    + destruct (IH bs0 eq_refl Hin) as (a' & Ha' & Hf).
      exists a'. split; [right; exact Ha' | exact Hf].
Qed.

Lemma compute_geometry_In (sw sh dw dh sx sy : Q) (s : Substrate)
    (ds : list Die) (die : Die) :
  compute_geometry sw sh dw dh sx sy s = Ok ds -> In die ds ->
  exists xs ys shot_x shot_y tile,
    shot_positions sw sh s = Ok (xs, ys)
    /\ In shot_x xs /\ In shot_y ys
    /\ shot_dice sw sh dw dh sx sy shot_x shot_y = Ok tile
    /\ In die tile.
Proof.
  unfold compute_geometry.
  destruct (shot_positions sw sh s) as [[xs ys]|e]; [|discriminate]. simpl.
  destruct (rmapM _ _) as [tiles|e] eqn:Htiles; [|discriminate]. simpl.
  intros [= <-] Hin. apply in_concat in Hin as (tile & Htile & Hin).
  destruct (rmapM_In _ _ _ _ Htiles Htile) as ([shot_x shot_y] & Hpos & Hf).
  apply in_flat_map in Hpos as (x0 & Hx0 & Hpos).
  apply in_map_iff in Hpos as (y0 & [= <- <-] & Hy0).
  exists xs, ys, x0, y0, tile. repeat split; assumption.
Qed.


(** Every die the builder returns is [pending] and carries its 4 corners
    in the order lower-left, lower-right, upper-left, upper-right, at
    distance [die_width] and [die_height] from its [x] and [y]. *)
Theorem compute_geometry_shape (sw sh dw dh sx sy : Q) (s : Substrate)
    (ds : list Die) (die : Die) :
  compute_geometry sw sh dw dh sx sy s = Ok ds -> In die ds ->
  status die = pending
  /\ corners die
     = [ (die_x die, die_y die);
         (die_x die + dw, die_y die)%Q;
         (die_x die, die_y die + dh)%Q;
         (die_x die + dw, die_y die + dh)%Q ].
Proof.
  intros Hgeo Hin.
  destruct (compute_geometry_In _ _ _ _ _ _ _ _ _ Hgeo Hin)
    as (xs & ys & shot_x & shot_y & tile & _ & _ & _ & Htile & Hdie).
  destruct (shot_dice_In _ _ _ _ _ _ _ _ _ _ Htile Hdie)
    as (nx & ny & i & j & _ & _ & _ & _ & ->).
  split; reflexivity.
Qed.

Lemma small_panel_geometry :
  compute_geometry 2 2 1 1 0 0 (Panel 2 2 0)
  = Ok [ place_die 1 1 0 0 0 0 0 0; place_die 1 1 0 0 0 0 0 1;
         place_die 1 1 0 0 0 0 1 0; place_die 1 1 0 0 0 0 1 1 ].
Proof. reflexivity. Qed.


Lemma compute_geometry_shape_witness :
  status (place_die 1 1 0 0 0 0 1 0) = pending
  /\ corners (place_die 1 1 0 0 0 0 1 0)
     = [ (die_x (place_die 1 1 0 0 0 0 1 0), die_y (place_die 1 1 0 0 0 0 1 0));
         (die_x (place_die 1 1 0 0 0 0 1 0) + 1,
          die_y (place_die 1 1 0 0 0 0 1 0))%Q;
         (die_x (place_die 1 1 0 0 0 0 1 0),
          die_y (place_die 1 1 0 0 0 0 1 0) + 1)%Q;
         (die_x (place_die 1 1 0 0 0 0 1 0) + 1,
          die_y (place_die 1 1 0 0 0 0 1 0) + 1)%Q ].
Proof.
  refine (compute_geometry_shape 2 2 1 1 0 0 (Panel 2 2 0) _
            (place_die 1 1 0 0 0 0 1 0) small_panel_geometry _).
  right; right; left; reflexivity.
Defined.




Lemma shot_dice_zero_pitch (sw sh dw dh sx sy shot_x shot_y : Q) :
  (dw + sx == 0 \/ dh + sy == 0)%Q ->
  shot_dice sw sh dw dh sx sy shot_x shot_y = Raise ZeroDivisionError.
Proof.
  intros H. unfold shot_dice, num_dice_x, num_dice_y, py_floordiv.
  destruct (Qeq_bool (dw + sx) 0) eqn:Ex; [reflexivity|]. simpl.
  destruct (Qeq_bool (dh + sy) 0) eqn:Ey; [reflexivity|].
  exfalso. apply Qeq_bool_neq in Ex, Ey. tauto.
Qed.

(** A zero die pitch on either axis makes the builder raise
    [ZeroDivisionError] as soon as there is one shot to fill; with no shot
    along x or along y nothing is divided and the result is the empty
    list, whatever the die dimensions. *)
Theorem compute_geometry_zero_pitch (sw sh dw dh sx sy : Q) (s : Substrate)
    (xs ys : list Q) :
  shot_positions sw sh s = Ok (xs, ys) ->
  (xs = [] \/ ys = [] -> compute_geometry sw sh dw dh sx sy s = Ok [])
  /\ (xs <> [] -> ys <> [] -> (dw + sx == 0 \/ dh + sy == 0)%Q ->
      compute_geometry sw sh dw dh sx sy s = Raise ZeroDivisionError).
Proof.
  intros Hpos. unfold compute_geometry. rewrite Hpos. simpl. split.
  - intros [-> | ->]; [reflexivity|].
    rewrite grid_empty_inner. reflexivity.
  - intros Hxs Hys Hzero.
    destruct xs as [|x xs]; [contradiction|].
    destruct ys as [|y ys]; [contradiction|].
    simpl. rewrite shot_dice_zero_pitch by exact Hzero. reflexivity.
Qed.

Lemma compute_geometry_zero_pitch_witness :
  compute_geometry 1 1 0 0 0 0 (Wafer 0 0) = Ok []
  /\ compute_geometry 1 1 0 0 0 0 (Panel 2 2 0) = Raise ZeroDivisionError.
Proof.
  split.
  - apply (proj1 (compute_geometry_zero_pitch 1 1 0 0 0 0 (Wafer 0 0)
                    [] [] eq_refl)).
    left. reflexivity.
  - apply (proj2 (compute_geometry_zero_pitch 1 1 0 0 0 0 (Panel 2 2 0)
                    [0; 1]%Q [0; 1]%Q eq_refl));
      [discriminate | discriminate | left; reflexivity].
Defined.

(** ** Injector and runner: further properties *)

Lemma count_dice_count_statuses (p : Status -> bool) (h : heap)
    (ls : list loc) :
  count_dice p h ls = count_statuses p (statuses h ls).
Proof.
  induction ls as [|d ls IH]; simpl; [reflexivity|].
  destruct (status_at h d) as [st|]; rewrite IH; reflexivity.
Qed.

Lemma count_statuses_nonneg (p : Status -> bool) (ss : list (option Status)) :
  0 <= count_statuses p ss.
Proof.
  induction ss as [|[st|] ss IH]; simpl; [lia | destruct (p st); lia | lia].
Qed.

Lemma extends_refl (h : heap) : extends h h.
Proof. split; [lia | reflexivity]. Qed.

Lemma extends_trans (h1 h2 h3 : heap) :
  extends h1 h2 -> extends h2 h3 -> extends h1 h3.
Proof.
  intros [L1 P1] [L2 P2]. split; [lia|].
  intros l Hl. rewrite P2 by lia. apply P1, Hl.
Qed.

Section EngineExtras.
Variable rng_state : Type.
Variable rng_seed : Z -> rng_state.
Variable rng_random : rng_state -> R * rng_state.

Local Abbreviation inject_loop yf ls w :=
  (fold_left (inject_step rng_random yf) ls w).

(** *** Injection twice *)

Lemma inject_step_noop (yf : R) (w : World rng_state) (d : loc) :
  status_at (w_heap w) d <> Some good_physical ->
  inject_step rng_random yf w d = w.
Proof.
  unfold inject_step, status_at. destruct (w_heap w !! d) as [die|];
    [|reflexivity].
  destruct (status die); try reflexivity. intros H. contradiction H.
  reflexivity.
Qed.

Lemma inject_loop_noop (yf : R) (ls : list loc) (w : World rng_state) :
  (forall l, l ∈ ls -> status_at (w_heap w) l <> Some good_physical) ->
  inject_loop yf ls w = w.
Proof.
  induction ls as [|d ls IH]; intros H; [reflexivity|]. simpl.
  rewrite inject_step_noop by (apply H, elem_of_cons; left; reflexivity).
  apply IH. intros l Hl. apply H, elem_of_cons. right. exact Hl.
Qed.

(** A second [inject_defects] over the same list changes no dict and draws
    no number, whatever its yield fraction: the dice of the list are
    resolved already.  With a seed it still reseeds the generator. *)
Theorem inject_defects_idempotent (dice_list : list loc) (yf1 yf2 : R)
    (seed1 seed2 : option Z) (w : World rng_state) :
  let w1 := snd (inject_defects rng_seed rng_random dice_list yf1 seed1 w) in
  let w2 := snd (inject_defects rng_seed rng_random dice_list yf2 seed2 w1) in
  w_heap w2 = w_heap w1
  /\ w_rng w2 = match seed2 with
                | Some n => rng_seed n
                | None => w_rng w1
                end.
Proof.
  intros w1 w2. subst w2. unfold inject_defects at 1 2. cbn [snd].
  set (w1' := match seed2 with
              | Some n => mkWorld (w_heap w1) (rng_seed n)
              | None => w1
              end).
  assert (Hheap : w_heap w1' = w_heap w1)
    by (subst w1'; destruct seed2; reflexivity).
  rewrite inject_loop_noop.
  - split; [exact Hheap | subst w1'; destruct seed2; reflexivity].
  - intros l Hl. rewrite Hheap. subst w1. unfold inject_defects. cbn [snd].
    apply inject_loop_resolved, Hl.
Qed.

(** *** Number of draws *)

Lemma inject_statuses_rng (yf : R) (h : heap) (ls : list loc)
    (g : rng_state) :
  snd (inject_statuses rng_random yf (statuses h ls) g)
  = Nat.iter (Z.to_nat (count_dice (status_eqb good_physical) h ls))
             (fun g0 => snd (rng_random g0)) g.
Proof.
  revert g. induction ls as [|d ls IH]; intros g; [reflexivity|].
  pose proof (count_dice_nonneg (status_eqb good_physical) h ls) as Hc.
  cbn [statuses map count_dice]. fold (statuses h ls).
  destruct (status_at h d) as [[]|]; cbn [status_eqb inject_statuses];
    try (specialize (IH g);
         destruct (inject_statuses rng_random yf (statuses h ls) g);
         exact IH).
  destruct (rng_random g) as [u g1] eqn:Hg. specialize (IH g1).
  destruct (inject_statuses rng_random yf (statuses h ls) g1).
  cbn [snd] in *. rewrite IH.
  replace (Z.to_nat (1 + count_dice (status_eqb good_physical) h ls))
    with (S (Z.to_nat (count_dice (status_eqb good_physical) h ls))) by lia.
  rewrite Nat.iter_succ_r, Hg. reflexivity.
Qed.

(** On a list of distinct dice [inject_defects] draws exactly one number
    per [good_physical] die: the generator ends where that many draws from
    its starting state (the seeded state, or the current one without a
    seed) lead. *)
Theorem inject_defects_draws (dice_list : list loc) (yf : R)
    (seed : option Z) (w : World rng_state) :
  NoDup dice_list ->
  w_rng (snd (inject_defects rng_seed rng_random dice_list yf seed w))
  = Nat.iter
      (Z.to_nat (count_dice (status_eqb good_physical) (w_heap w) dice_list))
      (fun g => snd (rng_random g))
      (match seed with Some n => rng_seed n | None => w_rng w end).
Proof.
  intros Hnd. unfold inject_defects. cbn [snd].
  set (w1 := match seed with
             | Some n => mkWorld (w_heap w) (rng_seed n)
             | None => w
             end).
  assert (Hheap : w_heap w1 = w_heap w)
    by (subst w1; destruct seed; reflexivity).
  assert (Hrng : w_rng w1
                 = match seed with Some n => rng_seed n | None => w_rng w end)
    by (subst w1; destruct seed; reflexivity).
  pose proof (inject_loop_statuses _ rng_random yf dice_list w1 Hnd) as H.
  apply (f_equal snd) in H. cbn [snd] in H.
  rewrite <- H, inject_statuses_rng, Hheap, Hrng. reflexivity.
Qed.

(** *** Seeded runs and the ambient generator *)

Lemma run_trials_seeded_ambient (runs : list Z) (base_dice : list loc)
    (s : Substrate) (yf : R) (base_seed : Z) (h : heap) (g g' : rng_state) :
  runs <> [] ->
  run_trials rng_seed rng_random runs base_dice s yf (Some base_seed)
             (mkWorld h g)
  = run_trials rng_seed rng_random runs base_dice s yf (Some base_seed)
               (mkWorld h g').
Proof.
  destruct runs as [|run rest]; [contradiction|]. intros _. reflexivity.
Qed.

(** With a seed and at least one trial, [run_simulation] does not depend on
    the state of the module-level generator at the call: results, final
    store and final generator state are the same from any state.  The call
    overwrites the generator. *)
Theorem run_simulation_seeded_ambient (sim_runs : Z) (base_dice : list loc)
    (s : Substrate) (yf : R) (base_seed : Z) (h : heap) (g g' : rng_state) :
  1 <= sim_runs ->
  run_simulation rng_seed rng_random sim_runs base_dice s yf (Some base_seed)
                 (mkWorld h g)
  = run_simulation rng_seed rng_random sim_runs base_dice s yf
                   (Some base_seed) (mkWorld h g').
Proof.
  intros Hn. unfold run_simulation. apply run_trials_seeded_ambient.
  intros E. apply (f_equal length) in E. rewrite py_range_length in E.
  simpl in E. lia.
Qed.

(** *** Each trial, seen from the whole run *)

Lemma run_trial_extends (base_dice : list loc) (s : Substrate) (yf : R)
    (seed : option Z) (w w' : World rng_state) (r : TrialResult) :
  run_trial rng_seed rng_random base_dice s yf seed w = Ok (r, w') ->
  extends (w_heap w) (w_heap w').
Proof.
  intros Hrun.
  destruct (run_trial_spec _ rng_seed rng_random base_dice s yf seed w)
    as (r0 & w0 & Hrun0 & _ & Hlen & Hpre & _).
  rewrite Hrun in Hrun0. injection Hrun0 as <- <-.
  split; [lia | exact Hpre].
Qed.

Lemma run_trials_extends (runs : list Z) (base_dice : list loc)
    (s : Substrate) (yf : R) (random_seed : option Z)
    (w w' : World rng_state) (rs : list TrialResult) :
  run_trials rng_seed rng_random runs base_dice s yf random_seed w
  = Ok (rs, w') ->
  extends (w_heap w) (w_heap w').
Proof.
  intros Hrun.
  destruct (run_trials_spec _ rng_seed rng_random runs base_dice s yf
                            random_seed w)
    as (rs0 & w0 & Hrun0 & _ & Hle & Hpre & _).
  rewrite Hrun in Hrun0. injection Hrun0 as <- <-.
  split; assumption.
Qed.

Lemma run_trials_cons (run : Z) (rest : list Z) (base_dice : list loc)
    (s : Substrate) (yf : R) (random_seed : option Z)
    (w w' : World rng_state) (rs : list TrialResult) :
  run_trials rng_seed rng_random (run :: rest) base_dice s yf random_seed w
  = Ok (rs, w') ->
  exists r w1 rs',
    rs = r :: rs'
    /\ run_trial rng_seed rng_random base_dice s yf
                 (match random_seed with
                  | Some n => Some (n + run)
                  | None => None
                  end) w
       = Ok (r, w1)
    /\ run_trials rng_seed rng_random rest base_dice s yf random_seed w1
       = Ok (rs', w').
Proof.
  cbn [run_trials].
  destruct (run_trial _ _ _ _ _ _ w) as [[r w1]|e] eqn:Hfirst;
    [|discriminate].
  cbn [rbind].
  destruct (run_trials _ _ rest _ _ _ _ w1) as [[rs' w2]|e] eqn:Hrest;
    [|discriminate].
  cbn [rbind]. intros [= <- <-]. exists r, w1, rs'.
  split; [reflexivity|]. split; [reflexivity | exact Hrest].
Qed.

(** Trial [k] of a run: the world it starts from extends the initial one,
    and the final world extends the one it leaves. *)
Lemma run_trials_each (runs : list Z) (base_dice : list loc) (s : Substrate)
    (yf : R) (random_seed : option Z) (w w' : World rng_state)
    (rs : list TrialResult) (k : nat) (r : TrialResult) :
  run_trials rng_seed rng_random runs base_dice s yf random_seed w
  = Ok (rs, w') ->
  rs !! k = Some r ->
  exists run wk wk1,
    runs !! k = Some run
    /\ extends (w_heap w) (w_heap wk)
    /\ run_trial rng_seed rng_random base_dice s yf
                 (match random_seed with
                  | Some n => Some (n + run)
                  | None => None
                  end) wk
       = Ok (r, wk1)
    /\ extends (w_heap wk1) (w_heap w').
Proof.
  revert w rs k. induction runs as [|run rest IH]; intros w rs k Hrun Hk.
  - simpl in Hrun. injection Hrun as <- <-. discriminate Hk.
  - apply run_trials_cons in Hrun as (r0 & w1 & rs' & -> & Hfirst & Hrest).
    destruct k as [|k].
    + injection Hk as <-. exists run, w, w1.
      split; [reflexivity|]. split; [apply extends_refl|].
      split; [exact Hfirst|]. eapply run_trials_extends, Hrest.
    + destruct (IH w1 rs' k Hrest Hk)
        as (run' & wk & wk1 & Hrun' & Hext & Htrial & Hext').
      exists run', wk, wk1. split; [exact Hrun'|].
      split; [|split; assumption].
      eapply extends_trans; [eapply run_trial_extends, Hfirst | exact Hext].
Qed.

Lemma base_contents_extends (h h' : heap) (base_dice : list loc) :
  live h base_dice -> extends h h' ->
  base_contents h' base_dice = base_contents h base_dice.
Proof. intros Hlive [_ Hpre]. apply base_contents_agree; assumption. Qed.

Lemma base_contents_live (h : heap) (base_dice : list loc) :
  live h base_dice ->
  length (base_contents h base_dice) = length base_dice
  /\ forall i d, base_dice !! i = Some d ->
                 base_contents h base_dice !! i = h !! d
                 /\ is_Some (h !! d).
Proof.
  unfold base_contents. induction 1 as [|d0 ls Hd _ [IHlen IH]].
  - split; [reflexivity|]. intros i d Hi. discriminate Hi.
  - destruct (lookup_lt_is_Some_2 _ _ Hd) as [die Hdie].
    cbn [omap list_omap]. rewrite Hdie. split; [simpl; lia|].
    intros [|i] d Hi.
    + injection Hi as <-. simpl. rewrite Hdie. split; [reflexivity | eauto].
    + apply IH, Hi.
Qed.

(** What a run leaves of trial [k]: its dice are the addresses allocated
    by the trial, they carry the statuses the trial computed, and their
    geometry is that of the dicts the trial copied. *)
Lemma trial_view (sim_runs : Z) (base_dice : list loc) (s : Substrate)
    (yf : R) (random_seed : option Z) (w w' : World rng_state)
    (rs : list TrialResult) (k : nat) (r : TrialResult) :
  run_simulation rng_seed rng_random sim_runs base_dice s yf random_seed w
  = Ok (rs, w') ->
  rs !! k = Some r ->
  exists (wk : World rng_state) (g0 : rng_state),
    let contents := base_contents (w_heap wk) base_dice in
    extends (w_heap w) (w_heap wk)
    /\ (live (w_heap w) base_dice ->
        contents = base_contents (w_heap w) base_dice)
    /\ res_dice r = seq (length (w_heap wk)) (length contents)
    /\ (length (w_heap wk) + length contents <= length (w_heap w'))%nat
    /\ statuses (w_heap w') (res_dice r)
       = fst (inject_statuses rng_random yf (classified s contents) g0)
    /\ tallied (w_heap w') r
    /\ forall i die,
         contents !! i = Some die ->
         exists die',
           w_heap w' !! (length (w_heap wk) + i)%nat = Some die'
           /\ geometry die' = geometry die.
Proof.
  unfold run_simulation. intros Hrun Hk.
  destruct (run_trials_each _ _ _ _ _ _ _ _ _ _ Hrun Hk)
    as (run & wk & wk1 & _ & Hext & Htrial & Hext').
  set (seed := match random_seed with
               | Some n => Some (n + run)
               | None => None
               end) in *.
  exists wk, (match seed with Some n => rng_seed n | None => w_rng wk end).
  cbv zeta. set (contents := base_contents (w_heap wk) base_dice).
  destruct (run_trial_spec _ rng_seed rng_random base_dice s yf seed wk)
    as (r0 & w0 & Hrun0 & Hdice & Hlen & Hpre & Hst & Htal).
  rewrite Htrial in Hrun0. injection Hrun0 as <- <-.
  fold contents in Hdice, Hlen, Hst.
  destruct Hext' as [Hle' Hpre'].
  assert (Hin : forall l, l ∈ res_dice r -> (l < length (w_heap wk1))%nat).
  { intros l Hl. rewrite Hdice in Hl. apply elem_of_seq in Hl. lia. }
  assert (Hst' : statuses (w_heap w') (res_dice r)
                 = statuses (w_heap wk1) (res_dice r)).
  { apply statuses_agree. intros l Hl. apply Hpre', Hin, Hl. }
  split; [exact Hext|].
  split; [intros Hlive; apply base_contents_extends; assumption|].
  split; [exact Hdice|]. split; [lia|].
  split; [rewrite Hst'; exact Hst|].
  split; [apply (tallied_agree (w_heap wk1)); assumption|].
  intros i die Hi.
  assert (Hlt : (i < length contents)%nat) by (eapply lookup_lt_Some, Hi).
  rewrite Hpre' by lia.
  (* the dict at this address after classification and injection *)
  revert Htrial. unfold run_trial, copy_dice, inject_defects.
  fold (base_contents (w_heap wk) base_dice). fold contents.
  cbv beta iota zeta. rewrite classify_all_fresh, fab_yield_ok.
  cbn [rbind]. intros [= _ <-].
  set (h2 := w_heap wk ++ map (fun d => set_status d (classify_die d s))
                              contents).
  set (w1 := match seed with
             | Some n => mkWorld (w_heap (mkWorld h2 (w_rng wk))) (rng_seed n)
             | None => mkWorld h2 (w_rng wk)
             end).
  assert (Hw1 : w_heap w1 = h2) by (subst w1; destruct seed; reflexivity).
  pose proof (inject_loop_injected _ rng_random yf
                (seq (length (w_heap wk)) (length contents)) w1) as Hinj.
  rewrite Hw1 in Hinj.
  assert (Hh2 : h2 !! (length (w_heap wk) + i)%nat
                = Some (set_status die (classify_die die s))).
  { subst h2. rewrite lookup_app_r by lia.
    replace (length (w_heap wk) + i - length (w_heap wk))%nat with i by lia.
    rewrite list_lookup_fmap, Hi. reflexivity. }
  destruct (injected_geometry _ _ _ _ _ Hinj Hh2)
    as (die' & Hl' & Hx & Hy & Hc & _).
  exists die'. split; [exact Hl'|].
  unfold geometry. rewrite Hx, Hy, Hc. reflexivity.
Qed.

(** *** What injection does to the counts *)

Lemma classified_count_zero (p : Status -> bool) (s : Substrate)
    (contents : list Die) :
  p good_physical = false -> p partial = false -> p lost = false ->
  count_statuses p (classified s contents) = 0.
Proof.
  intros Hgp Hpa Hlo. induction contents as [|die contents IH];
    [reflexivity|].
  cbn [classified map count_statuses]. fold (classified s contents).
  unfold classify_die.
  destruct (inside_count s (corners die) =? 4); [rewrite Hgp; exact IH|].
  destruct (0 <? inside_count s (corners die));
    [rewrite Hpa | rewrite Hlo]; exact IH.
Qed.

Lemma inject_statuses_untouched (p : Status -> bool) (yf : R)
    (ss : list (option Status)) (g : rng_state) :
  p good_physical = false -> p good = false -> p defective = false ->
  count_statuses p (fst (inject_statuses rng_random yf ss g))
  = count_statuses p ss.
Proof.
  intros Hgp Hgo Hde. revert g.
  induction ss as [|[st|] ss IH]; intros g; [reflexivity| |].
  - destruct st; cbn [inject_statuses];
      try (specialize (IH g);
           destruct (inject_statuses rng_random yf ss g) as [out g2];
           cbn [fst count_statuses] in *; rewrite IH; reflexivity).
    destruct (rng_random g) as [u g1]. specialize (IH g1).
    destruct (inject_statuses rng_random yf ss g1) as [out g2].
    cbn [fst count_statuses] in *. rewrite Hgp, IH.
    destruct (Rlt_dec u yf); [rewrite Hgo | rewrite Hde]; reflexivity.
  - cbn [inject_statuses]. specialize (IH g).
    destruct (inject_statuses rng_random yf ss g) as [out g2].
    cbn [fst count_statuses] in *. exact IH.
Qed.

Lemma inject_statuses_resolved (yf : R) (ss : list (option Status))
    (g : rng_state) :
  count_statuses (fun st => status_eqb st good || status_eqb st defective)
                 (fst (inject_statuses rng_random yf ss g))
  = count_statuses (status_eqb good_physical) ss
    + count_statuses (fun st => status_eqb st good || status_eqb st defective)
                     ss.
Proof.
  revert g. induction ss as [|[st|] ss IH]; intros g; [reflexivity| |].
  - destruct st; cbn [inject_statuses];
      try (specialize (IH g);
           destruct (inject_statuses rng_random yf ss g) as [out g2];
           cbn [fst count_statuses status_eqb orb] in *; lia).
    destruct (rng_random g) as [u g1]. specialize (IH g1).
    destruct (inject_statuses rng_random yf ss g1) as [out g2].
    cbn [fst count_statuses] in *.
    destruct (Rlt_dec u yf); cbn [status_eqb orb]; lia.
  - cbn [inject_statuses]. specialize (IH g).
    destruct (inject_statuses rng_random yf ss g) as [out g2].
    cbn [fst count_statuses] in *. exact IH.
Qed.

(** With every draw below the yield fraction no die turns defective; with
    no draw below it no die turns good. *)
Lemma inject_statuses_one_sided (p : Status -> bool) (yf : R)
    (ss : list (option Status)) (g : rng_state) :
  p good_physical = false ->
  ((forall g0, (fst (rng_random g0) < yf)%R) /\ p good = false
   \/ (forall g0, ~ (fst (rng_random g0) < yf)%R) /\ p defective = false) ->
  count_statuses p (fst (inject_statuses rng_random yf ss g))
  = count_statuses p ss.
Proof.
  intros Hgp Hside. revert g.
  induction ss as [|[st|] ss IH]; intros g; [reflexivity| |].
  - destruct st; cbn [inject_statuses];
      try (specialize (IH g);
           destruct (inject_statuses rng_random yf ss g) as [out g2];
           cbn [fst count_statuses] in *; rewrite IH; reflexivity).
    destruct (rng_random g) as [u g1] eqn:Hg.
    assert (Hu : u = fst (rng_random g)) by (rewrite Hg; reflexivity).
    specialize (IH g1).
    destruct (inject_statuses rng_random yf ss g1) as [out g2].
    cbn [fst count_statuses] in *. rewrite Hgp, IH.
    destruct (Rlt_dec u yf) as [Hlt|Hge];
      destruct Hside as [[Hall Hp] | [Hall Hp]].
    + rewrite Hp. reflexivity.
    + exfalso. apply (Hall g). rewrite <- Hu. exact Hlt.
    + exfalso. apply Hge. rewrite Hu. apply Hall.
    + rewrite Hp. reflexivity.
  - cbn [inject_statuses]. specialize (IH g).
    destruct (inject_statuses rng_random yf ss g) as [out g2].
    cbn [fst count_statuses] in *. exact IH.
Qed.

(** The counts of a trial result, read off the statuses its dice end
    with. *)
Lemma trial_view_counts (sim_runs : Z) (base_dice : list loc) (s : Substrate)
    (yf : R) (random_seed : option Z) (w w' : World rng_state)
    (rs : list TrialResult) (r : TrialResult) :
  run_simulation rng_seed rng_random sim_runs base_dice s yf random_seed w
  = Ok (rs, w') ->
  r ∈ rs ->
  exists (contents : list Die) (g0 : rng_state),
    (live (w_heap w) base_dice ->
     contents = base_contents (w_heap w) base_dice)
    /\ tallied (w_heap w') r
    /\ length (res_dice r) = length contents
    /\ forall p,
         count_dice p (w_heap w') (res_dice r)
         = count_statuses p
             (fst (inject_statuses rng_random yf (classified s contents) g0)).
Proof.
  intros Hrun Hr. apply list_elem_of_lookup in Hr as [k Hk].
  destruct (trial_view _ _ _ _ _ _ _ _ _ _ Hrun Hk)
    as (wk & g0 & _ & Hlive & Hdice & _ & Hst & Htal & _).
  exists (base_contents (w_heap wk) base_dice), g0.
  split; [exact Hlive|]. split; [exact Htal|].
  split; [rewrite Hdice; apply length_seq|].
  intros p. rewrite count_dice_count_statuses, Hst. reflexivity.
Qed.

(** *** Counts that no trial changes *)

(** Over live base dice every trial reports the same [total],
    [good_physical], [partial] and [lost]: the number of base dice and the
    numbers of them that classification puts in each class.  Seed and yield
    fraction only move dice between [good] and [defective]. *)
Theorem trial_counts_fixed (sim_runs : Z) (base_dice : list loc)
    (s : Substrate) (yf : R) (random_seed : option Z)
    (w : World rng_state) :
  live (w_heap w) base_dice ->
  exists rs w',
    run_simulation rng_seed rng_random sim_runs base_dice s yf random_seed w
    = Ok (rs, w')
    /\ forall r, r ∈ rs ->
         let cls := classified s (base_contents (w_heap w) base_dice) in
         res_total r = Z.of_nat (length base_dice)
         /\ res_good_physical r
            = count_statuses (status_eqb good_physical) cls
         /\ res_partial r = count_statuses (status_eqb partial) cls
         /\ res_lost r = count_statuses (status_eqb lost) cls.
Proof.
  intros Hlive.
  destruct (run_simulation_spec _ rng_seed rng_random sim_runs base_dice s yf
                                random_seed w)
    as (rs & w' & Hrun & _).
  exists rs, w'. split; [exact Hrun|]. intros r Hr cls.
  destruct (trial_view_counts _ _ _ _ _ _ _ _ _ Hrun Hr)
    as (contents & g0 & Hcontents & Htal & Hlen & Hcount).
  rewrite (Hcontents Hlive) in *. fold cls in Hcount.
  destruct Htal as (Ht & _ & _ & Hp & Hl & Hgp & _).
  split.
  { rewrite Ht, Hlen. f_equal. apply base_contents_live, Hlive. }
  split.
  { rewrite Hgp, Hcount, inject_statuses_resolved.
    subst cls.
    rewrite (classified_count_zero
               (fun st => status_eqb st good || status_eqb st defective) s)
      by reflexivity.
    lia. }
  split.
  - rewrite Hp, Hcount. apply inject_statuses_untouched; reflexivity.
  - rewrite Hl, Hcount. apply inject_statuses_untouched; reflexivity.
Qed.

(** *** Yield fraction at the ends of its range *)

(** With draws in [0, 1), as [random.random()] gives them: a yield
    fraction of at least 1 leaves no die defective, and [fab_yield] is 1 as
    soon as one die is [good_physical]; a yield fraction of at most 0
    leaves no die good, and [fab_yield] is 0. *)
Theorem yield_extremes (sim_runs : Z) (base_dice : list loc)
    (s : Substrate) (yf : R) (random_seed : option Z)
    (w : World rng_state) :
  (forall g, (0 <= fst (rng_random g) < 1)%R) ->
  exists rs w',
    run_simulation rng_seed rng_random sim_runs base_dice s yf random_seed w
    = Ok (rs, w')
    /\ forall r, r ∈ rs ->
         ((1 <= yf)%R ->
          res_defective r = 0 /\ res_good r = res_good_physical r
          /\ (0 < res_good_physical r -> (res_fab_yield r == 1)%Q))
         /\ ((yf <= 0)%R ->
             res_good r = 0 /\ res_defective r = res_good_physical r
             /\ (res_fab_yield r == 0)%Q).
Proof.
  intros Hdraw.
  destruct (run_simulation_spec _ rng_seed rng_random sim_runs base_dice s yf
                                random_seed w)
    as (rs & w' & Hrun & _).
  exists rs, w'. split; [exact Hrun|]. intros r Hr.
  destruct (trial_view_counts _ _ _ _ _ _ _ _ _ Hrun Hr)
    as (contents & g0 & _ & Htal & _ & Hcount).
  pose proof (tallied_bounds _ _ Htal) as (Hg0 & Hd0 & Hsum).
  destruct Htal as (_ & Hg & Hd & _ & _ & _ & Hfy).
  split.
  - intros Hyf.
    assert (Hnone : res_defective r = 0).
    { rewrite Hd, Hcount, inject_statuses_one_sided.
      - apply classified_count_zero; reflexivity.
      - reflexivity.
      - left. split; [|reflexivity]. intros g. specialize (Hdraw g). lra. }
    split; [exact Hnone|]. split; [lia|].
    intros Hpos. rewrite Hfy, Hnone, Z.add_0_r.
    destruct (Z.ltb_spec 0 (res_good r)) as [_|Hle]; [|lia].
    apply Qmult_inv_r. intros E.
    assert (Hlt : (inject_Z 0 < inject_Z (res_good r))%Q)
      by (rewrite <- Zlt_Qlt; lia).
    rewrite E in Hlt. discriminate Hlt.
  - intros Hyf.
    assert (Hnone : res_good r = 0).
    { rewrite Hg, Hcount, inject_statuses_one_sided.
      - apply classified_count_zero; reflexivity.
      - reflexivity.
      - right. split; [|reflexivity]. intros g. specialize (Hdraw g). lra. }
    split; [exact Hnone|]. split; [lia|].
    rewrite Hfy, Hnone.
    destruct (0 <? 0 + res_defective r); [|reflexivity].
    unfold Qdiv. apply Qmult_0_l.
Qed.

(** *** The status of the base dice does not matter *)

Lemma classified_corners (s : Substrate) (c1 c2 : list Die) :
  map corners c1 = map corners c2 -> classified s c1 = classified s c2.
Proof.
  revert c2. induction c1 as [|d1 c1 IH]; intros [|d2 c2] H;
    try discriminate; [reflexivity|].
  simpl in H. injection H as Hc Hrest.
  cbn [classified map]. fold (classified s c1) (classified s c2).
  rewrite (IH c2 Hrest). unfold classify_die. rewrite Hc. reflexivity.
Qed.

(** A seeded run reads only the corners of the base dice: two runs over
    base dice with the same corners in the same order, whatever their
    statuses, [x] and [y], agree on the statuses and tallies of every
    trial. *)
Theorem base_status_irrelevant (n1 n2 : Z) (base1 base2 : list loc)
    (s : Substrate) (yf : R) (base_seed : Z) (wa wb : World rng_state) :
  live (w_heap wa) base1 -> live (w_heap wb) base2 ->
  map corners (base_contents (w_heap wa) base1)
  = map corners (base_contents (w_heap wb) base2) ->
  exists rs1 wa' rs2 wb',
    run_simulation rng_seed rng_random n1 base1 s yf (Some base_seed) wa
    = Ok (rs1, wa')
    /\ run_simulation rng_seed rng_random n2 base2 s yf (Some base_seed) wb
       = Ok (rs2, wb')
    /\ forall k r1 r2,
         rs1 !! k = Some r1 -> rs2 !! k = Some r2 ->
         statuses (w_heap wa') (res_dice r1)
         = statuses (w_heap wb') (res_dice r2)
         /\ same_tallies r1 r2.
Proof.
  intros Hlive1 Hlive2 Hcorners.
  destruct (run_simulation_spec _ rng_seed rng_random n1 base1 s yf
                                (Some base_seed) wa)
    as (rs1 & wa' & Hrun1 & _ & _ & Hres1).
  destruct (run_simulation_spec _ rng_seed rng_random n2 base2 s yf
                                (Some base_seed) wb)
    as (rs2 & wb' & Hrun2 & _ & _ & Hres2).
  exists rs1, wa', rs2, wb'.
  split; [exact Hrun1|]. split; [exact Hrun2|].
  intros k r1 r2 Hr1 Hr2.
  destruct (Hres1 k r1 Hr1) as [(_ & Htal1 & _) Hseed1].
  destruct (Hres2 k r2 Hr2) as [(_ & Htal2 & _) Hseed2].
  assert (Hst : statuses (w_heap wa') (res_dice r1)
                = statuses (w_heap wb') (res_dice r2)).
  { rewrite (Hseed1 base_seed eq_refl Hlive1),
            (Hseed2 base_seed eq_refl Hlive2).
    unfold trial_statuses.
    fold (classified s (base_contents (w_heap wa) base1)).
    fold (classified s (base_contents (w_heap wb) base2)).
    rewrite (classified_corners s _ _ Hcorners). reflexivity. }
  split; [exact Hst|].
  apply (tallied_same (w_heap wa') (w_heap wb')); assumption.
Qed.

(** *** The dice of the trials *)

Lemma run_trial_dice_bounds (base_dice : list loc) (s : Substrate) (yf : R)
    (seed : option Z) (w w' : World rng_state) (r : TrialResult) (l : loc) :
  run_trial rng_seed rng_random base_dice s yf seed w = Ok (r, w') ->
  l ∈ res_dice r ->
  (length (w_heap w) <= l < length (w_heap w'))%nat.
Proof.
  intros Hrun Hl.
  destruct (run_trial_spec _ rng_seed rng_random base_dice s yf seed w)
    as (r0 & w0 & Hrun0 & Hdice & Hlen & _).
  rewrite Hrun in Hrun0. injection Hrun0 as <- <-.
  rewrite Hdice in Hl. apply elem_of_seq in Hl. lia.
Qed.

Lemma run_trials_ordered (runs : list Z) (base_dice : list loc)
    (s : Substrate) (yf : R) (random_seed : option Z)
    (w w' : World rng_state) (rs : list TrialResult)
    (k1 k2 : nat) (r1 r2 : TrialResult) (l1 l2 : loc) :
  run_trials rng_seed rng_random runs base_dice s yf random_seed w
  = Ok (rs, w') ->
  (k1 < k2)%nat -> rs !! k1 = Some r1 -> rs !! k2 = Some r2 ->
  l1 ∈ res_dice r1 -> l2 ∈ res_dice r2 -> (l1 < l2)%nat.
Proof.
  revert w rs k1 k2.
  induction runs as [|run rest IH]; intros w rs k1 k2 Hrun Hlt H1 H2 Hl1 Hl2.
  - simpl in Hrun. injection Hrun as <- <-. discriminate H1.
  - apply run_trials_cons in Hrun as (r0 & w1 & rs' & -> & Hfirst & Hrest).
    destruct k2 as [|k2]; [lia|]. destruct k1 as [|k1].
    + injection H1 as <-.
      pose proof (run_trial_dice_bounds _ _ _ _ _ _ _ _ Hfirst Hl1) as B1.
      destruct (run_trials_each _ _ _ _ _ _ _ _ _ _ Hrest H2)
        as (run2 & wk & wk1 & _ & [Hle _] & Htrial & _).
      pose proof (run_trial_dice_bounds _ _ _ _ _ _ _ _ Htrial Hl2) as B2.
      lia.
    + apply (IH w1 rs' k1 k2 Hrest); [lia | assumption..].
Qed.

(** No two trials share a dict, no trial lists a dict twice, and every
    dict of a trial was created by the call; over live base dice each trial
    has one die per base die. *)
Theorem trial_dice_fresh (sim_runs : Z) (base_dice : list loc)
    (s : Substrate) (yf : R) (random_seed : option Z)
    (w : World rng_state) :
  exists rs w',
    run_simulation rng_seed rng_random sim_runs base_dice s yf random_seed w
    = Ok (rs, w')
    /\ (forall k r, rs !! k = Some r ->
          NoDup (res_dice r)
          /\ (forall l, l ∈ res_dice r ->
                (length (w_heap w) <= l < length (w_heap w'))%nat)
          /\ (live (w_heap w) base_dice ->
              length (res_dice r) = length base_dice))
    /\ (forall k1 k2 r1 r2 l,
          k1 <> k2 -> rs !! k1 = Some r1 -> rs !! k2 = Some r2 ->
          l ∈ res_dice r1 -> l ∉ res_dice r2).
Proof.
  destruct (run_simulation_spec _ rng_seed rng_random sim_runs base_dice s yf
                                random_seed w)
    as (rs & w' & Hrun & _).
  exists rs, w'. split; [exact Hrun|]. split.
  - intros k r Hk.
    destruct (trial_view _ _ _ _ _ _ _ _ _ _ Hrun Hk)
      as (wk & g0 & [Hle _] & Hlive & Hdice & Hlen & _).
    split; [rewrite Hdice; apply NoDup_seq|]. split.
    + intros l Hl. rewrite Hdice in Hl. apply elem_of_seq in Hl. lia.
    + intros H. rewrite Hdice, length_seq, (Hlive H).
      apply base_contents_live, H.
  - intros k1 k2 r1 r2 l Hne H1 H2 Hl1 Hl2. unfold run_simulation in Hrun.
    destruct (Nat.lt_total k1 k2) as [Hlt | [E | Hlt]]; [|contradiction|].
    + pose proof (run_trials_ordered _ _ _ _ _ _ _ _ _ _ _ _ _ _
                    Hrun Hlt H1 H2 Hl1 Hl2). lia.
    + pose proof (run_trials_ordered _ _ _ _ _ _ _ _ _ _ _ _ _ _
                    Hrun Hlt H2 H1 Hl2 Hl1). lia.
Qed.

(** Over live base dice, die [i] of every trial has the [x], [y] and
    [corners] of base die [i]. *)
Theorem trial_dice_geometry (sim_runs : Z) (base_dice : list loc)
    (s : Substrate) (yf : R) (random_seed : option Z)
    (w : World rng_state) :
  live (w_heap w) base_dice ->
  exists rs w',
    run_simulation rng_seed rng_random sim_runs base_dice s yf random_seed w
    = Ok (rs, w')
    /\ forall k r i d,
         rs !! k = Some r -> base_dice !! i = Some d ->
         exists l die die',
           res_dice r !! i = Some l
           /\ w_heap w !! d = Some die
           /\ w_heap w' !! l = Some die'
           /\ geometry die' = geometry die.
Proof.
  intros Hlive.
  destruct (run_simulation_spec _ rng_seed rng_random sim_runs base_dice s yf
                                random_seed w)
    as (rs & w' & Hrun & _).
  exists rs, w'. split; [exact Hrun|]. intros k r i d Hk Hi.
  destruct (trial_view _ _ _ _ _ _ _ _ _ _ Hrun Hk)
    as (wk & g0 & _ & Hcontents & Hdice & _ & _ & _ & Hgeo).
  rewrite (Hcontents Hlive) in Hdice, Hgeo.
  destruct (base_contents_live _ _ Hlive) as [Hlen Hlook].
  destruct (Hlook i d Hi) as [Hci [die Hdie]].
  rewrite Hdie in Hci.
  destruct (Hgeo i die Hci) as (die' & Hl' & Hg).
  exists (length (w_heap wk) + i)%nat, die, die'.
  split; [|repeat split; assumption].
  rewrite Hdice. apply lookup_seq_lt. rewrite Hlen.
  eapply lookup_lt_Some, Hi.
Qed.

(** *** Splitting a run *)

Lemma run_trials_app (l1 l2 : list Z) (base_dice : list loc) (s : Substrate)
    (yf : R) (random_seed : option Z) (w : World rng_state) :
  run_trials rng_seed rng_random (l1 ++ l2) base_dice s yf random_seed w
  = rbind (run_trials rng_seed rng_random l1 base_dice s yf random_seed w)
          (fun '(rs1, w1) =>
     rbind (run_trials rng_seed rng_random l2 base_dice s yf random_seed w1)
           (fun '(rs2, w2) => Ok (rs1 ++ rs2, w2))).
Proof.
  revert w. induction l1 as [|run l1 IH]; intros w.
  - simpl. destruct (run_trials _ _ l2 _ _ _ _ w) as [[rs2 w2]|e];
      reflexivity.
  - cbn [app run_trials].
    destruct (run_trial _ _ _ _ _ _ w) as [[r w1]|e]; [|reflexivity].
    cbn [rbind]. rewrite IH.
    destruct (run_trials _ _ l1 _ _ _ _ w1) as [[rs1 w1']|e];
      [|reflexivity].
    cbn [rbind].
    destruct (run_trials _ _ l2 _ _ _ _ w1') as [[rs2 w2]|e]; reflexivity.
Qed.

Lemma run_trials_shift (n : Z) (l : list Z) (base_dice : list loc)
    (s : Substrate) (yf : R) (random_seed : option Z)
    (w : World rng_state) :
  run_trials rng_seed rng_random (map (Z.add n) l) base_dice s yf
             random_seed w
  = run_trials rng_seed rng_random l base_dice s yf
               (match random_seed with
                | Some b => Some (b + n)
                | None => None
                end) w.
Proof.
  revert w. induction l as [|run l IH]; intros w; [reflexivity|].
  cbn [map run_trials].
  replace (match random_seed with
           | Some b => Some (b + (n + run))
           | None => None
           end)
    with (match match random_seed with
                | Some b => Some (b + n)
                | None => None
                end with
          | Some b => Some (b + run)
          | None => None
          end)
    by (destruct random_seed; [f_equal; lia | reflexivity]).
  destruct (run_trial _ _ _ _ _ _ w) as [[r w1]|e]; [|reflexivity].
  cbn [rbind]. rewrite IH. reflexivity.
Qed.

Lemma py_range_add (n1 n2 : Z) :
  0 <= n1 -> 0 <= n2 ->
  py_range (n1 + n2) = py_range n1 ++ map (Z.add n1) (py_range n2).
Proof.
  intros H1 H2. unfold py_range.
  replace (Z.to_nat (n1 + n2)) with (Z.to_nat n1 + Z.to_nat n2)%nat by lia.
  rewrite seq_app, map_app. f_equal. simpl.
  rewrite <- (Nat.add_0_r (Z.to_nat n1)) at 1.
  rewrite <- fmap_add_seq, !map_map. apply map_ext. intros k. lia.
Qed.

(** A run of [n1 + n2] trials is a run of [n1] trials followed by a run of
    [n2] trials on the world the first leaves, with the seed moved on by
    [n1]: same results in the same order, same final store and generator. *)
Theorem run_simulation_split (n1 n2 : Z) (base_dice : list loc)
    (s : Substrate) (yf : R) (random_seed : option Z)
    (w : World rng_state) :
  0 <= n1 -> 0 <= n2 ->
  run_simulation rng_seed rng_random (n1 + n2) base_dice s yf random_seed w
  = rbind (run_simulation rng_seed rng_random n1 base_dice s yf
                          random_seed w)
          (fun '(rs1, w1) =>
     rbind (run_simulation rng_seed rng_random n2 base_dice s yf
                           (match random_seed with
                            | Some b => Some (b + n1)
                            | None => None
                            end) w1)
           (fun '(rs2, w2) => Ok (rs1 ++ rs2, w2))).
Proof.
  intros H1 H2. unfold run_simulation.
  rewrite py_range_add, run_trials_app by assumption.
  destruct (run_trials _ _ (py_range n1) _ _ _ _ w) as [[rs1 w1]|e];
    [|reflexivity].
  cbn [rbind]. rewrite run_trials_shift. reflexivity.
Qed.

End EngineExtras.

(** ** The further properties on examples *)

Lemma cyc_random_range (g : Z) : (0 <= fst (cyc_random g) < 1)%R.
Proof.
  unfold cyc_random. cbn [fst].
  pose proof (Z.mod_pos_bound g 4 ltac:(lia)) as [H0 H4].
  apply IZR_le in H0. apply IZR_lt in H4.
  split.
  - apply Rmult_le_pos; lra.
  - apply (Rmult_lt_reg_r 4); [lra|].
    unfold Rdiv. rewrite Rmult_assoc, Rinv_l by lra. lra.
Qed.

Lemma two_dice_NoDup : NoDup [0%nat; 1%nat].
Proof.
  apply NoDup_cons. split; [|apply NoDup_singleton].
  intros H. apply elem_of_cons in H as [H | H];
    [discriminate | inversion H].
Qed.

Lemma one_die_live : live (w_heap one_die_world) [0%nat].
Proof. constructor; [simpl; lia | constructor]. Qed.

Lemma inject_defects_draws_witness :
  w_rng (snd (inject_defects cyc_seed cyc_random [0%nat; 1%nat] (1 / 2)%R
                             (Some 42) classified_world))
  = 43.
Proof.
  exact (inject_defects_draws Z cyc_seed cyc_random [0%nat; 1%nat] (1 / 2)%R
           (Some 42) classified_world two_dice_NoDup).
Defined.

Lemma run_simulation_seeded_ambient_witness :
  run_simulation cyc_seed cyc_random 3 [0%nat] small_wafer (1 / 2)%R (Some 42)
                 (mkWorld [unit_die] 0)
  = run_simulation cyc_seed cyc_random 3 [0%nat] small_wafer (1 / 2)%R
                   (Some 42) (mkWorld [unit_die] 1000).
Proof.
  apply (run_simulation_seeded_ambient Z cyc_seed cyc_random 3 [0%nat]
           small_wafer (1 / 2)%R 42 [unit_die] 0 1000).
  lia.
Defined.

Lemma trial_counts_fixed_witness :
  exists rs w',
    run_simulation cyc_seed cyc_random 3 [0%nat] small_wafer (1 / 2)%R (Some 42)
                   one_die_world
    = Ok (rs, w')
    /\ forall r, r ∈ rs ->
         res_total r = 1 /\ res_good_physical r = 1
         /\ res_partial r = 0 /\ res_lost r = 0.
Proof.
  exact (trial_counts_fixed Z cyc_seed cyc_random 3 [0%nat] small_wafer
           (1 / 2)%R (Some 42) one_die_world one_die_live).
Defined.

Lemma yield_extremes_witness :
  exists rs w',
    run_simulation cyc_seed cyc_random 3 [0%nat] small_wafer 1%R (Some 42)
                   one_die_world
    = Ok (rs, w')
    /\ forall r, r ∈ rs ->
         res_defective r = 0 /\ res_good r = res_good_physical r.
Proof.
  destruct (yield_extremes Z cyc_seed cyc_random 3 [0%nat] small_wafer 1%R
              (Some 42) one_die_world cyc_random_range)
    as (rs & w' & Hrun & Hall).
  exists rs, w'. split; [exact Hrun|]. intros r Hr.
  destruct (proj1 (Hall r Hr) ltac:(lra)) as (Hd & Hg & _).
  split; assumption.
Defined.

Lemma base_status_irrelevant_witness :
  exists rs1 wa' rs2 wb',
    run_simulation cyc_seed cyc_random 2 [0%nat] small_wafer (1 / 2)%R
                   (Some 42) one_die_world
    = Ok (rs1, wa')
    /\ run_simulation cyc_seed cyc_random 2 [1%nat] small_wafer (1 / 2)%R
                      (Some 42) classified_world
       = Ok (rs2, wb')
    /\ forall k r1 r2,
         rs1 !! k = Some r1 -> rs2 !! k = Some r2 ->
         statuses (w_heap wa') (res_dice r1)
         = statuses (w_heap wb') (res_dice r2)
         /\ same_tallies r1 r2.
Proof.
  apply (base_status_irrelevant Z cyc_seed cyc_random 2 2 [0%nat] [1%nat]
           small_wafer (1 / 2)%R 42 one_die_world classified_world).
  - exact one_die_live.
  - constructor; [simpl; lia | constructor].
  - reflexivity.
Defined.

Lemma trial_dice_geometry_witness :
  exists rs w',
    run_simulation cyc_seed cyc_random 2 [0%nat] small_wafer (1 / 2)%R (Some 42)
                   one_die_world
    = Ok (rs, w')
    /\ forall k r i d,
         rs !! k = Some r -> [0%nat] !! i = Some d ->
         exists l die die',
           res_dice r !! i = Some l
           /\ w_heap one_die_world !! d = Some die
           /\ w_heap w' !! l = Some die'
           /\ geometry die' = geometry die.
Proof.
  exact (trial_dice_geometry Z cyc_seed cyc_random 2 [0%nat] small_wafer
           (1 / 2)%R (Some 42) one_die_world one_die_live).
Defined.

Lemma run_simulation_split_witness :
  run_simulation cyc_seed cyc_random (5 + 5) [0%nat] small_wafer (1 / 2)%R
                 (Some 42) one_die_world
  = rbind (run_simulation cyc_seed cyc_random 5 [0%nat] small_wafer (1 / 2)%R
                          (Some 42) one_die_world)
          (fun '(rs1, w1) =>
     rbind (run_simulation cyc_seed cyc_random 5 [0%nat] small_wafer
                           (1 / 2)%R (Some (42 + 5)) w1)
           (fun '(rs2, w2) => Ok (rs1 ++ rs2, w2))).
Proof.
  apply (run_simulation_split Z cyc_seed cyc_random 5 5 [0%nat] small_wafer
           (1 / 2)%R (Some 42) one_die_world); lia.
Defined.

(** ** The first version against the current one *)

Lemma rbind_rmapM_map {A B C} (f : A -> result (list B)) (h : B -> C)
    (l : list A) :
  rmapM (fun a => rbind (f a) (fun bs => Ok (map h bs))) l
  = rbind (rmapM f l) (fun tiles => Ok (map (map h) tiles)).
Proof.
  induction l as [|a l IH]; [reflexivity|]. simpl.
  destruct (f a) as [bs|e]; [|reflexivity]. simpl. rewrite IH.
  destruct (rmapM f l) as [tiles|e]; reflexivity.
Qed.

Lemma rmapM_ext {A B} (f g : A -> result B) (l : list A) :
  (forall a, f a = g a) -> rmapM f l = rmapM g l.
Proof.
  intros H. induction l as [|a l IH]; [reflexivity|].
  simpl. rewrite H, IH. reflexivity.
Qed.

Lemma v1_shot_dice_map (sw sh dw dh sx sy : Q) (s : Substrate)
    (shot_x shot_y : Q) :
  v1_shot_dice sw sh dw dh sx sy s shot_x shot_y
  = rbind (shot_dice sw sh dw dh sx sy shot_x shot_y)
          (fun ds => Ok (map (v1_of s) ds)).
Proof.
  unfold v1_shot_dice, shot_dice.
  destruct (num_dice_x sw dw sx) as [nx|e]; [|reflexivity].
  destruct (num_dice_y sh dh sy) as [ny|e]; [|reflexivity].
  simpl. f_equal.
  induction (py_range nx) as [|i l IH]; [reflexivity|].
  simpl. rewrite map_app, <- IH, map_map. reflexivity.
Qed.

Lemma v1_build_map (sw sh dw dh sx sy : Q) (s : Substrate) :
  v1_build sw sh dw dh sx sy s
  = rbind (compute_geometry sw sh dw dh sx sy s)
          (fun ds => Ok (map (v1_of s) ds)).
Proof.
  unfold v1_build, compute_geometry.
  destruct (shot_positions sw sh s) as [[xs ys]|e]; [|reflexivity]. simpl.
  rewrite (rmapM_ext _
             (fun p => rbind ((fun '(shot_x, shot_y) =>
                                 shot_dice sw sh dw dh sx sy shot_x shot_y) p)
                             (fun ds => Ok (map (v1_of s) ds))))
    by (intros [shot_x shot_y]; apply v1_shot_dice_map).
  rewrite rbind_rmapM_map.
  destruct (rmapM _ _) as [tiles|e]; [|reflexivity]. simpl.
  rewrite concat_map. reflexivity.
Qed.

Lemma v1_count_statuses (p : Status -> bool) (dl : list V1Die) :
  v1_count p dl = count_statuses p (map (fun d => Some (v1_status d)) dl).
Proof.
  induction dl as [|d dl IH]; [reflexivity|].
  simpl. rewrite IH. reflexivity.
Qed.

Lemma v1_indices_count (idx : nat) (dl : list V1Die) :
  Z.of_nat (length (v1_indices_from idx dl))
  = count_statuses (status_eqb good_physical)
                   (map (fun d => Some (v1_status d)) dl).
Proof.
  revert idx. induction dl as [|d dl IH]; intros idx; [reflexivity|].
  cbn [v1_indices_from map count_statuses].
  destruct (v1_status d); cbn [status_eqb]; try apply IH.
  cbn [length]. rewrite <- (IH (S idx)). lia.
Qed.

Lemma v1_statuses_classified (s : Substrate) (ds : list Die) :
  map (fun d => Some (v1_status d)) (map (v1_of s) ds) = classified s ds.
Proof. rewrite map_map. reflexivity. Qed.


Lemma final_status_not_blue (st : Status) :
  final_status (Some st) -> die_color st <> "blue"%string.
Proof.
  intros [H | [H | [H | H]]]; injection H as ->; discriminate.
Qed.


Section VersionOne.
Variable rng_state : Type.
Variable rng_seed : Z -> rng_state.
Variable rng_random : rng_state -> R * rng_state.

(** The injection loop over the indices, on the part of the list the
    enumeration has not passed yet. *)
Lemma v1_inject_fold (yf : R) (pre dl : list V1Die) (g : rng_state) :
  exists dl',
    fold_left (v1_inject_step rng_random yf)
              (v1_indices_from (length pre) dl) (pre ++ dl, g)
    = (pre ++ dl',
       snd (inject_statuses rng_random yf
              (map (fun d => Some (v1_status d)) dl) g))
    /\ map v1_x dl' = map v1_x dl
    /\ map v1_y dl' = map v1_y dl
    /\ map (fun d => Some (v1_status d)) dl'
       = fst (inject_statuses rng_random yf
                (map (fun d => Some (v1_status d)) dl) g).
Proof.
  revert pre g. induction dl as [|d dl IH]; intros pre g.
  - exists []. repeat split.
  - assert (Hcons : forall d0 : V1Die,
               pre ++ d0 :: dl = (pre ++ [d0]) ++ dl)
      by (intros d0; rewrite <- app_assoc; reflexivity).
    assert (Hlen : forall d0 : V1Die,
               S (length pre) = length (pre ++ [d0]))
      by (intros d0; rewrite length_app; simpl; lia).
    destruct (status_eqb (v1_status d) good_physical) eqn:Hgp.
    + assert (Hst : v1_status d = good_physical)
        by (destruct (v1_status d); try discriminate; reflexivity).
      cbn [v1_indices_from map inject_statuses]. rewrite Hgp, Hst.
      cbn [fold_left]. unfold v1_inject_step at 2.
      destruct (rng_random g) as [u g1].
      set (d' := mkV1Die (v1_x d) (v1_y d)
                         (if Rlt_dec u yf then good else defective)).
      replace (alter _ (length pre) (pre ++ d :: dl)) with (pre ++ d' :: dl).
      2:{ rewrite <- (Nat.add_0_r (length pre)) at 1.
          rewrite alter_app_r. reflexivity. }
      rewrite (Hcons d'), (Hlen d').
      destruct (IH (pre ++ [d']) g1) as (dl' & Hfold & Hx & Hy & Hs).
      rewrite Hfold.
      destruct (inject_statuses rng_random yf _ g1) as [out g2].
      exists (d' :: dl'). cbn [fst snd] in *.
      split; [rewrite <- app_assoc; reflexivity|].
      split; [simpl; rewrite Hx; reflexivity|].
      split; [simpl; rewrite Hy; reflexivity|].
      simpl. rewrite Hs. reflexivity.
    + cbn [v1_indices_from map]. rewrite Hgp.
      rewrite (Hcons d), (Hlen d).
      destruct (IH (pre ++ [d]) g) as (dl' & Hfold & Hx & Hy & Hs).
      rewrite Hfold.
      assert (Hinj : inject_statuses rng_random yf
                       (Some (v1_status d)
                        :: map (fun d0 => Some (v1_status d0)) dl) g
                     = (Some (v1_status d)
                        :: fst (inject_statuses rng_random yf
                                  (map (fun d0 => Some (v1_status d0)) dl) g),
                        snd (inject_statuses rng_random yf
                               (map (fun d0 => Some (v1_status d0)) dl) g))).
      { cbn [inject_statuses].
        destruct (inject_statuses rng_random yf _ g) as [out g2].
        destruct (v1_status d); try discriminate; reflexivity. }
      rewrite Hinj. cbn [fst snd].
      exists (d :: dl').
      split; [rewrite <- app_assoc; reflexivity|].
      split; [simpl; rewrite Hx; reflexivity|].
      split; [simpl; rewrite Hy; reflexivity|].
      simpl. rewrite Hs. reflexivity.
Qed.

Lemma v1_calculate_spec (s : Substrate) (sw sh dw dh sx sy : Q)
    (defect_rate critical_area : R) (model : string) (g : rng_state)
    (yf : R) (ds : list Die) :
  compute_yield_fraction defect_rate critical_area model = Ok yf ->
  compute_geometry sw sh dw dh sx sy s = Ok ds ->
  exists sm,
    v1_calculate rng_random s sw sh dw dh sx sy defect_rate critical_area
                 model g
    = Ok (sm, snd (inject_statuses rng_random yf (classified s ds) g))
    /\ map (fun d => Some (v1_status d)) (v1_dice_list sm)
       = fst (inject_statuses rng_random yf (classified s ds) g)
    /\ map v1_x (v1_dice_list sm) = map die_x ds
    /\ map v1_y (v1_dice_list sm) = map die_y ds
    /\ v1_total_dice sm = Z.of_nat (length (v1_dice_list sm))
    /\ v1_num_good_physical sm
       = count_statuses (status_eqb good_physical) (classified s ds)
    /\ v1_count_good sm = v1_count (status_eqb good) (v1_dice_list sm)
    /\ v1_count_defective sm
       = v1_count (status_eqb defective) (v1_dice_list sm)
    /\ v1_count_partial sm = v1_count (status_eqb partial) (v1_dice_list sm)
    /\ v1_count_lost sm = v1_count (status_eqb lost) (v1_dice_list sm)
    /\ v1_fab_yield sm
       = (if 0 <? v1_count_good sm + v1_count_defective sm
          then inject_Z (v1_count_good sm)
               / inject_Z (v1_count_good sm + v1_count_defective sm)
          else 0)%Q.
Proof.
  intros Hyf Hgeo. unfold v1_calculate.
  rewrite Hyf. cbn [rbind]. rewrite v1_build_map, Hgeo. cbn [rbind].
  destruct (v1_inject_fold yf [] (map (v1_of s) ds) g)
    as (dl' & Hfold & Hx & Hy & Hs).
  cbn [length app] in Hfold. rewrite Hfold. rewrite fab_yield_ok.
  cbn [rbind]. rewrite v1_statuses_classified in *.
  eexists. split; [reflexivity|]. cbn.
  split; [exact Hs|].
  split; [rewrite Hx, map_map; reflexivity|].
  split; [rewrite Hy, map_map; reflexivity|].
  split; [reflexivity|].
  split; [rewrite v1_indices_count, v1_statuses_classified; reflexivity|].
  repeat split.
Qed.


(** *** The simulation of [main] *)

Lemma base_contents_fresh (h ext : heap) :
  base_contents (h ++ ext) (seq (length h) (length ext)) = ext.
Proof.
  unfold base_contents. revert h.
  induction ext as [|die ext IH]; intros h; [reflexivity|].
  cbn [length seq omap list_omap].
  rewrite lookup_app_r by lia.
  replace (length h - length h)%nat with 0%nat by lia. cbn [lookup list_lookup].
  f_equal. specialize (IH (h ++ [die])).
  rewrite length_app in IH. simpl in IH.
  replace (length h + 1)%nat with (S (length h)) in IH by lia.
  rewrite <- app_assoc in IH. exact IH.
Qed.


Lemma classified_set_status (s : Substrate) (f : Die -> Status)
    (ds : list Die) :
  classified s (map (fun die => set_status die (f die)) ds) = classified s ds.
Proof.
  apply classified_corners. rewrite map_map. reflexivity.
Qed.

Lemma run_trial_rng (base_dice : list loc) (s : Substrate) (yf : R)
    (seed : option Z) (w w' : World rng_state) (r : TrialResult) :
  run_trial rng_seed rng_random base_dice s yf seed w = Ok (r, w') ->
  w_rng w'
  = snd (inject_statuses rng_random yf
           (classified s (base_contents (w_heap w) base_dice))
           (match seed with Some n => rng_seed n | None => w_rng w end)).
Proof.
  unfold run_trial, copy_dice, inject_defects.
  fold (base_contents (w_heap w) base_dice).
  set (contents := base_contents (w_heap w) base_dice).
  cbv beta iota zeta. rewrite classify_all_fresh, fab_yield_ok.
  cbn [rbind]. intros [= _ <-].
  set (h2 := w_heap w ++ map (fun d => set_status d (classify_die d s))
                             contents).
  set (ls := seq (length (w_heap w)) (length contents)).
  set (w1 := match seed with
             | Some n => mkWorld (w_heap (mkWorld h2 (w_rng w))) (rng_seed n)
             | None => mkWorld h2 (w_rng w)
             end).
  assert (Hw1 : w_heap w1 = h2) by (subst w1; destruct seed; reflexivity).
  assert (Hg1 : w_rng w1
                = match seed with Some n => rng_seed n | None => w_rng w end)
    by (subst w1; destruct seed; reflexivity).
  pose proof (inject_loop_statuses _ rng_random yf ls w1 (NoDup_seq _ _)) as H.
  rewrite Hw1, Hg1 in H.
  assert (Hcls : statuses h2 ls = classified s contents).
  { subst h2 ls.
    rewrite <- (length_map (fun d => set_status d (classify_die d s)) contents).
    rewrite statuses_fresh, map_map. reflexivity. }
  rewrite Hcls in H. rewrite H. reflexivity.
Qed.


(** The first version computes what the current one computes in a single
    run: started from the generator state the seed gives, it leaves the
    same statuses in the same order, the same counts and fab yield and the
    same generator state as [main] of the current version with one run. *)
Theorem v1_matches_current (s : Substrate) (sw sh dw dh sx sy : Q)
    (defect_rate critical_area : R) (model : string)
    (random_seed : Z) (w : World rng_state) :
  (0 < sw)%Q -> (0 < sh)%Q -> (0 < dw)%Q -> (0 < dh)%Q ->
  (0 <= sx)%Q -> (0 <= sy)%Q ->
  (0 <= defect_rate)%R -> (0 <= critical_area)%R ->
  exists sm g' r w',
    v1_calculate rng_random s sw sh dw dh sx sy defect_rate critical_area
                 model (rng_seed random_seed)
    = Ok (sm, g')
    /\ main_simulation rng_seed rng_random s sw sh dw dh sx sy
                       defect_rate critical_area model 1 random_seed w
       = Ok ([r], w')
    /\ map (fun d => Some (v1_status d)) (v1_dice_list sm)
       = statuses (w_heap w') (res_dice r)
    /\ g' = w_rng w'
    /\ v1_total_dice sm = res_total r
    /\ v1_num_good_physical sm = res_good_physical r
    /\ v1_count_good sm = res_good r
    /\ v1_count_defective sm = res_defective r
    /\ v1_count_partial sm = res_partial r
    /\ v1_count_lost sm = res_lost r
    /\ v1_fab_yield sm = res_fab_yield r.
Proof.
  intros Hsw Hsh Hdw Hdh Hsx Hsy Hr Ha.
  destruct (compute_yield_fraction_range defect_rate critical_area model Hr Ha)
    as (yf & Hyf & _).
  destruct (compute_geometry_ok sw sh dw dh sx sy Hsw Hsh Hdw Hdh Hsx Hsy s)
    as (xs & ys & ds & _ & Hgeo & _).
  destruct (v1_calculate_spec s sw sh dw dh sx sy defect_rate critical_area
                              model (rng_seed random_seed) yf ds Hyf Hgeo)
    as (sm & Hv1 & Hst & _ & _ & Ht & Hn & Hg & Hd & Hp & Hl & Hf).
  set (out := inject_statuses rng_random yf (classified s ds)
                              (rng_seed random_seed)) in *.
  unfold main_simulation. rewrite Hyf, Hgeo. cbn [rbind]. cbv zeta.
  rewrite classify_all_fresh.
  set (ds' := map (fun die => set_status die (classify_die die s)) ds).
  assert (Hlen' : length ds = length ds')
    by (subst ds'; rewrite length_map; reflexivity).
  rewrite Hlen'.
  set (base := seq (length (w_heap w)) (length ds')).
  set (w2 := mkWorld (w_heap w ++ ds') (w_rng w)).
  assert (Hcontents : classified s (base_contents (w_heap w2) base)
                      = classified s ds).
  { subst base w2 ds'. cbn [w_heap]. rewrite base_contents_fresh.
    apply classified_set_status. }
  unfold run_simulation. change (py_range 1) with [0]. cbn [run_trials].
  destruct (run_trial_spec _ rng_seed rng_random base s yf
                           (Some (random_seed + 0)) w2)
    as (r & w' & Hrun & _ & _ & _ & Hst2 & Htal).
  pose proof (run_trial_rng _ _ _ _ _ _ _ Hrun) as Hrng.
  rewrite Hrun. cbn [rbind].
  unfold trial_statuses in Hst2.
  fold (classified s (base_contents (w_heap w2) base)) in Hst2.
  rewrite Hcontents, Z.add_0_r in Hst2, Hrng. fold out in Hst2, Hrng.
  exists sm, (snd out), r, w'.
  split; [exact Hv1|]. split; [reflexivity|].
  split; [rewrite Hst, Hst2; reflexivity|].
  split; [symmetry; exact Hrng|].
  destruct Htal as (Ht2 & Hg2 & Hd2 & Hp2 & Hl2 & Hgp2 & Hf2).
  rewrite !count_dice_count_statuses, Hst2 in *.
  rewrite !v1_count_statuses, Hst in *.
  assert (Eg : v1_count_good sm = res_good r) by congruence.
  assert (Ed : v1_count_defective sm = res_defective r) by congruence.
  split.
  { rewrite Ht, Ht2.
    apply (f_equal length) in Hst, Hst2. unfold statuses in Hst2.
    rewrite length_map in Hst, Hst2. congruence. }
  split.
  { rewrite Hn, Hgp2. subst out. rewrite inject_statuses_resolved.
    rewrite (classified_count_zero
               (fun st => status_eqb st good || status_eqb st defective) s)
      by reflexivity.
    lia. }
  split; [exact Eg|]. split; [exact Ed|].
  split; [congruence|]. split; [congruence|].
  rewrite Hf, Hf2, Eg, Ed. reflexivity.
Qed.

(** Every die of every trial result is in a state [main] draws green, red,
    yellow or grey: the blue of its last branch is never used. *)
Theorem trial_dice_colors (sim_runs : Z) (base_dice : list loc)
    (s : Substrate) (yf : R) (random_seed : option Z)
    (w : World rng_state) :
  exists rs w',
    run_simulation rng_seed rng_random sim_runs base_dice s yf random_seed w
    = Ok (rs, w')
    /\ forall r l, r ∈ rs -> l ∈ res_dice r ->
         exists die,
           w_heap w' !! l = Some die
           /\ die_color (status die) <> "blue"%string.
Proof.
  destruct (run_simulation_spec _ rng_seed rng_random sim_runs base_dice s yf
                                random_seed w)
    as (rs & w' & Hrun & _ & _ & Hres).
  exists rs, w'. split; [exact Hrun|]. intros r l Hr Hl.
  apply list_elem_of_lookup in Hr as [k Hk].
  destruct (Hres k r Hk) as [(_ & _ & Hfin) _].
  unfold statuses in Hfin.
  apply List.Forall_forall with (x := status_at (w_heap w') l) in Hfin.
  2:{ apply in_map, list_elem_of_In, Hl. }
  unfold status_at in Hfin. destruct (w_heap w' !! l) as [die|].
  - exists die. split; [reflexivity | apply final_status_not_blue, Hfin].
  - destruct Hfin as [H | [H | [H | H]]]; discriminate.
Qed.

End VersionOne.



Lemma v1_matches_current_witness :
  exists sm g' r w',
    v1_calculate cyc_random (Panel 2 2 0) 2 2 1 1 0 0 (1 / 2)%R 25%R "Moore"
                 (cyc_seed 42)
    = Ok (sm, g')
    /\ main_simulation cyc_seed cyc_random (Panel 2 2 0) 2 2 1 1 0 0
                       (1 / 2)%R 25%R "Moore" 1 42 one_die_world
       = Ok ([r], w')
    /\ map (fun d => Some (v1_status d)) (v1_dice_list sm)
       = statuses (w_heap w') (res_dice r)
    /\ g' = w_rng w'
    /\ v1_total_dice sm = res_total r
    /\ v1_num_good_physical sm = res_good_physical r
    /\ v1_count_good sm = res_good r
    /\ v1_count_defective sm = res_defective r
    /\ v1_count_partial sm = res_partial r
    /\ v1_count_lost sm = res_lost r
    /\ v1_fab_yield sm = res_fab_yield r.
Proof.
  apply (v1_matches_current Z cyc_seed cyc_random (Panel 2 2 0) 2 2 1 1 0 0
           (1 / 2)%R 25%R "Moore" 42 one_die_world);
    try reflexivity; try discriminate; lra.
Defined.

(** ** Geometry builder: the count is maximal, the shots cover the substrate *)







(** ** The generator after a run *)

Section GeneratorState.
Variable rng_state : Type.
Variable rng_seed : Z -> rng_state.
Variable rng_random : rng_state -> R * rng_state.

Local Abbreviation draw := (fun g : rng_state => snd (rng_random g)).

Lemma inject_statuses_draws (yf : R) (ss : list (option Status))
    (g : rng_state) :
  snd (inject_statuses rng_random yf ss g)
  = Nat.iter (Z.to_nat (count_statuses (status_eqb good_physical) ss)) draw g.
Proof.
  revert g. induction ss as [|[st|] ss IH]; intros g; [reflexivity| |].
  - pose proof (count_statuses_nonneg (status_eqb good_physical) ss) as Hc.
    destruct st; cbn [inject_statuses count_statuses status_eqb];
      try (specialize (IH g);
           destruct (inject_statuses rng_random yf ss g); exact IH).
    destruct (rng_random g) as [u g1] eqn:Hg. specialize (IH g1).
    destruct (inject_statuses rng_random yf ss g1). cbn [snd] in *.
    rewrite IH.
    replace (Z.to_nat (1 + count_statuses (status_eqb good_physical) ss))
      with (S (Z.to_nat (count_statuses (status_eqb good_physical) ss)))
      by lia.
    rewrite Nat.iter_succ_r, Hg. reflexivity.
  - cbn [inject_statuses count_statuses]. specialize (IH g).
    destruct (inject_statuses rng_random yf ss g). exact IH.
Qed.

Lemma run_trials_rng_unseeded (runs : list Z) (base_dice : list loc)
    (s : Substrate) (yf : R) (w w' : World rng_state)
    (rs : list TrialResult) :
  live (w_heap w) base_dice ->
  run_trials rng_seed rng_random runs base_dice s yf None w = Ok (rs, w') ->
  w_rng w'
  = Nat.iter
      (length runs
       * Z.to_nat (count_statuses (status_eqb good_physical)
                     (classified s (base_contents (w_heap w) base_dice))))
      draw (w_rng w).
Proof.
  revert w rs. induction runs as [|run rest IH]; intros w rs Hlive Hrun.
  - simpl in Hrun. injection Hrun as <- <-. reflexivity.
  - apply run_trials_cons in Hrun as (r & w1 & rs' & -> & Hfirst & Hrest).
    pose proof (run_trial_extends _ _ _ _ _ _ _ _ _ _ Hfirst) as Hext.
    pose proof (run_trial_rng _ _ _ _ _ _ _ _ _ _ Hfirst) as Hrng.
    cbn beta iota in Hrng. rewrite inject_statuses_draws in Hrng.
    rewrite (IH w1 rs'); [| |exact Hrest].
    2:{ apply (live_weaken (w_heap w)); [apply Hext | exact Hlive]. }
    rewrite (base_contents_extends _ _ _ Hlive Hext), Hrng.
    rewrite <- Nat.iter_add. f_equal. cbn [length]. lia.
Qed.

(** The state a run leaves the module-level generator in, over live base
    dice of which [G] classify as [good_physical]: without a seed the run
    draws [sim_runs * G] numbers from the state it finds; with a seed and
    at least one trial it leaves the state [G] draws after seeding with
    [base_seed + sim_runs - 1]. *)
Theorem generator_after_run (sim_runs : Z) (base_dice : list loc)
    (s : Substrate) (yf : R) (w : World rng_state) :
  live (w_heap w) base_dice ->
  let G := Z.to_nat (count_statuses (status_eqb good_physical)
                       (classified s (base_contents (w_heap w) base_dice))) in
  (exists rs w',
      run_simulation rng_seed rng_random sim_runs base_dice s yf None w
      = Ok (rs, w')
      /\ w_rng w' = Nat.iter (Z.to_nat sim_runs * G) draw (w_rng w))
  /\ (1 <= sim_runs ->
      forall base_seed : Z,
      exists rs w',
        run_simulation rng_seed rng_random sim_runs base_dice s yf
                       (Some base_seed) w
        = Ok (rs, w')
        /\ w_rng w'
           = Nat.iter G draw (rng_seed (base_seed + (sim_runs - 1)))).
Proof.
  intros Hlive G. split.
  - destruct (run_simulation_spec _ rng_seed rng_random sim_runs base_dice s
                                  yf None w)
      as (rs & w' & Hrun & _).
    exists rs, w'. split; [exact Hrun|]. unfold run_simulation in Hrun.
    rewrite (run_trials_rng_unseeded _ _ _ _ _ _ _ Hlive Hrun),
            py_range_length.
    reflexivity.
  - intros Hn base_seed.
    destruct (run_simulation_spec _ rng_seed rng_random sim_runs base_dice s
                                  yf (Some base_seed) w)
      as (rs & w' & Hrun & _).
    exists rs, w'. split; [exact Hrun|].
    replace sim_runs with ((sim_runs - 1) + 1) in Hrun by lia.
    rewrite run_simulation_split in Hrun by lia.
    destruct (run_simulation rng_seed rng_random (sim_runs - 1) base_dice s yf
                             (Some base_seed) w)
      as [[rs1 w1]|e] eqn:Hfirst; [|discriminate].
    cbn [rbind] in Hrun.
    pose proof (run_trials_extends _ _ _ _ _ _ _ _ _ _ _ Hfirst) as Hext.
    unfold run_simulation in Hrun. change (py_range 1) with [0] in Hrun.
    destruct (run_trials rng_seed rng_random [0] base_dice s yf
                (Some (base_seed + (sim_runs - 1))) w1)
      as [[rs2 w2]|e] eqn:Hlast; [|discriminate].
    cbn [rbind] in Hrun. injection Hrun as _ <-.
    apply run_trials_cons in Hlast as (r & w3 & rs' & _ & Htrial & Hnil).
    simpl in Hnil. injection Hnil as _ <-.
    rewrite (run_trial_rng _ _ _ _ _ _ _ _ _ _ Htrial).
    rewrite inject_statuses_draws,
            (base_contents_extends _ _ _ Hlive Hext), Z.add_0_r.
    reflexivity.
Qed.

End GeneratorState.

Lemma generator_after_run_witness :
  (exists rs w',
      run_simulation cyc_seed cyc_random 3 [0%nat] small_wafer (1 / 2)%R None
                     one_die_world
      = Ok (rs, w')
      /\ w_rng w' = 3)
  /\ exists rs w',
       run_simulation cyc_seed cyc_random 3 [0%nat] small_wafer (1 / 2)%R
                      (Some 42) one_die_world
       = Ok (rs, w')
       /\ w_rng w' = 45.
Proof.
  destruct (generator_after_run Z cyc_seed cyc_random 3 [0%nat] small_wafer
              (1 / 2)%R one_die_world one_die_live) as [Hnone Hsome].
  split; [exact Hnone | exact (Hsome ltac:(lia) 42)].
Defined.
